(** * Bridge keywords to Finder tags: a shallow embedding of
    [bridge_keywords_to_tags.py] and the properties of its synchronisation
    core (keyword extraction, marker gate, merge/replace reconciliation,
    folder pass and the watcher's event batcher). *)

From Stdlib Require Import Ascii String QArith.
From stdpp Require Import base gmap strings pretty list fin_maps.

Local Open Scope string_scope.
Local Open Scope list_scope.

(** ** Strings *)

(** The line feed, the separator of a stored tag entry ("name\ncolour"). *)
Definition LF : ascii := ascii_of_nat 10.

(** [tag.split('\n')[0]]: the text before the first line feed. *)
Fixpoint first_line (s : string) : string :=
  match s with
  | EmptyString => EmptyString
  | String c s' => if Ascii.eqb c LF then EmptyString else String c (first_line s')
  end.

(** Whether a string contains a line feed. *)
Fixpoint has_line_feed (s : string) : bool :=
  match s with
  | EmptyString => false
  | String c s' => Ascii.eqb c LF || has_line_feed s'
  end.

(** [f"{tag}\n0"]: a tag name followed by a line feed and colour 0. *)
Definition format_tag (tag : string) : string :=
  tag +:+ String LF "0".

(** The text after the last occurrence of [c], when [c] occurs
    ([s.rfind(c)] followed by a slice). *)
Fixpoint after_last (c : ascii) (s : string) : option string :=
  match s with
  | EmptyString => None
  | String a s' =>
      match after_last c s' with
      | Some r => Some r
      | None => if Ascii.eqb a c then Some s' else None
      end
  end.

(** [str.lower()] on the ASCII letters; used to instantiate the
    case-folding function, which the development keeps abstract. *)
Definition ascii_lower (c : ascii) : ascii :=
  let n := nat_of_ascii c in
  if (65 <=? n)%nat && (n <=? 90)%nat then ascii_of_nat (n + 32) else c.

Fixpoint lower_ascii (s : string) : string :=
  match s with
  | EmptyString => EmptyString
  | String c s' => String (ascii_lower c) (lower_ascii s')
  end.

(** ** Paths ([pathlib.Path], as normalised path strings) *)

(** [Path.name]: the final component. *)
Definition path_name (p : string) : string :=
  default p (after_last "/" p).

(** [Path.suffix]: from the last dot of the name, unless the name starts or
    ends with that dot. *)
Definition path_suffix (p : string) : string :=
  let name := path_name p in
  match after_last "." name with
  | Some ext =>
      if bool_decide (ext = "") || bool_decide (String.length name = S (String.length ext))
      then "" else String "." ext
  | None => ""
  end.

(** [Path.with_suffix('')]: the path without its suffix. *)
Definition path_with_suffix_empty (p : string) : string :=
  substring 0 (String.length p - String.length (path_suffix p)) p.

(** ** The outside world: files, their metadata and their tag attribute *)

(** One item of a JSON array printed by exiftool: a string, an integer
    (exiftool prints numeric keywords as numbers), or any other value, given
    by the text [str()] yields for it. *)
Inductive jitem :=
| IStr (s : string)
| IInt (z : Z)
| IRepr (s : string).

(** [str(item)]. *)
Definition py_str (i : jitem) : string :=
  match i with
  | IStr s => s
  | IInt z => pretty z
  | IRepr s => s
  end.

(** The value of a metadata field: a list, a string, or something else. *)
Inductive jvalue :=
| JList (items : list jitem)
| JStr (s : string)
| JOther.

(** The record exiftool prints for a file, restricted to the three fields
    the program asks for. *)
Record metadata := {
  Subject : option jvalue;
  Keywords : option jvalue;
  HierarchicalSubject : option jvalue
}.

(** What running exiftool on a file gives: a non-zero exit
    ([CalledProcessError]), output that does not parse or does not index
    ([JSONDecodeError], [KeyError]), or a JSON array of records. *)
Inductive exiftool_output :=
| ExifError
| ExifUnparseable
| ExifData (data : list metadata).

(** The [com.apple.metadata:_kMDItemUserTags] extended attribute: absent;
    present but no property list at all (bytes on which [plistlib.loads]
    raises [InvalidFileException]); or a property list, an array of
    strings, the entries. Values on which [plistlib.loads] raises another
    exception (XML cut short), or that are property lists of another
    shape, make [get_finder_tags] end the program with an exception it
    does not catch; they are not part of this development. *)
Inductive xattr_value :=
| XAbsent
| XInvalid
| XTags (entries : list string).

Global Instance xattr_value_eq_dec : EqDecision xattr_value.
Proof. solve_decision. Defined.

(** An entry of the file system, a regular file or a directory
    ([Path.is_dir()]): what exiftool prints for it (never asked of a
    directory), its tag attribute, and whether changing its extended
    attributes succeeds. *)
Record file := {
  is_dir : bool;
  exiftool : exiftool_output;
  user_tags : xattr_value;
  xattr_ok : bool
}.

(** The external commands the program runs, as recorded in the log. *)
Inductive command :=
| Exiftool (p : string)
| XattrP (p : string)
| XattrD (p : string)
| XattrWX (p : string) (entries : list string).

(** The world.

    - [files]: the entries of the file system, regular files and
      directories, by path. Paths are absolute and normalised, and there
      are no symbolic links: a path is its own [Path.resolve()].
    - [temp_files]: the temporary files of the program that exist, most
      recent first, each given by the entries written to it. They live in
      the temporary directory under names [tempfile] makes up, and are
      kept apart from [files].
    - [xattr_p_raw]: how the installed [xattr] prints a stored property
      list with [-p]: as the stored bytes themselves, which
      [plistlib.loads] reads back, or in some displayed form (a
      hexadecimal dump, say), which [plistlib.loads] rejects with
      [InvalidFileException]. The program fixes neither; it is a fact of
      the tool.
    - [log]: the commands run so far, most recent first. *)
Record world := {
  files : gmap string file;
  temp_files : list (list string);
  xattr_p_raw : bool;
  log : list command
}.

(** Computations that run commands: explicit state passing. *)
Definition M (A : Type) : Type := world → A * world.

Definition ret {A} (a : A) : M A := λ w, (a, w).

Definition bind {A B} (c : M A) (k : A → M B) : M B :=
  λ w, let '(a, w') := c w in k a w'.

Notation "'let*' x ':=' c 'in' k" := (bind c (λ x, k))
  (at level 10, x name, c at level 100, k at level 200).

Notation "'let*' ' p ':=' c 'in' k" := (bind c (λ r, let 'p := r in k))
  (at level 10, p strict pattern, c at level 100, k at level 200).

Definition logged (c : command) (w : world) : world :=
  {| files := files w; temp_files := temp_files w; xattr_p_raw := xattr_p_raw w;
     log := c :: log w |}.

Definition set_user_tags (p : string) (v : xattr_value) (w : world) : world :=
  {| files := alter (λ f, {| is_dir := is_dir f; exiftool := exiftool f;
                             user_tags := v; xattr_ok := xattr_ok f |}) p (files w);
     temp_files := temp_files w; xattr_p_raw := xattr_p_raw w;
     log := log w |}.

Definition set_temp_files (t : list (list string)) (w : world) : world :=
  {| files := files w; temp_files := t; xattr_p_raw := xattr_p_raw w; log := log w |}.

(** [tempfile.NamedTemporaryFile(delete=False)], written and closed: a new
    temporary file that holds the entries. *)
Definition create_temp (entries : list string) : M unit :=
  λ w, ((), set_temp_files (entries :: temp_files w) w).

(** [os.unlink(tmp_path)]: removes the temporary file made last. *)
Definition unlink_temp : M unit :=
  λ w, ((), set_temp_files (tail (temp_files w)) w).

(** [exiftool -json -Subject -Keywords -HierarchicalSubject p]. A missing
    file makes exiftool exit with an error. *)
Definition run_exiftool (p : string) : M exiftool_output :=
  λ w, (default ExifError (exiftool <$> files w !! p), logged (Exiftool p) w).

(** What [xattr -p] prints for a stored value, as [plistlib.loads] takes
    it: the value itself when the tool prints the stored bytes, and no
    property list when it prints them in another form. *)
Definition printed (raw : bool) (v : xattr_value) : xattr_value :=
  match v with
  | XAbsent => XAbsent
  | XInvalid => XInvalid
  | XTags entries => if raw then XTags entries else XInvalid
  end.

(** [xattr -p com.apple.metadata:_kMDItemUserTags p]: the command fails
    when the attribute (or the file) is absent ([XAbsent]); otherwise the
    result is its standard output. *)
Definition run_xattr_p (p : string) : M xattr_value :=
  λ w, (printed (xattr_p_raw w) (default XAbsent (user_tags <$> files w !! p)),
        logged (XattrP p) w).

(** [xattr -d ...]: removes the attribute; fails, changing nothing, when the
    attribute is absent or may not be changed. The result is the exit
    status (true for success). *)
Definition run_xattr_d (p : string) : M bool :=
  λ w,
    match files w !! p with
    | Some f =>
        if xattr_ok f && negb (bool_decide (user_tags f = XAbsent))
        then (true, set_user_tags p XAbsent (logged (XattrD p) w))
        else (false, logged (XattrD p) w)
    | None => (false, logged (XattrD p) w)
    end.

(** [xattr -wx ... hex p]: stores the property list; fails, changing
    nothing, when the attribute may not be changed. *)
Definition run_xattr_wx (p : string) (entries : list string) : M bool :=
  λ w,
    match files w !! p with
    | Some f =>
        if xattr_ok f
        then (true, set_user_tags p (XTags entries) (logged (XattrWX p entries) w))
        else (false, logged (XattrWX p entries) w)
    | None => (false, logged (XattrWX p entries) w)
    end.

(** ** Configuration *)

(** The module-level constants of the script: they are edited by the user
    (and rewritten by the menu-bar application), so they are kept as a
    value. *)
Record config := {
  MARKER_KEYWORD : option string;
  STRIP_HIERARCHICAL_PREFIXES : bool;
  WATCH_REPLACE_MODE : bool
}.

(** The constants as they stand in the source. *)
Definition source_config : config :=
  {| MARKER_KEYWORD := Some "sync";
     STRIP_HIERARCHICAL_PREFIXES := true;
     WATCH_REPLACE_MODE := true |}.

(** [if MARKER_KEYWORD:] is false for [None] and for the empty string. *)
Definition marker (cfg : config) : option string :=
  match MARKER_KEYWORD cfg with
  | Some "" => None
  | m => m
  end.

Definition SUPPORTED_EXTENSIONS : list string :=
  [".jpg"; ".jpeg"; ".png"; ".tiff"; ".tif"; ".gif"; ".bmp";
   ".psd"; ".ai"; ".eps"; ".pdf";
   ".raw"; ".cr2"; ".cr3"; ".nef"; ".arw"; ".orf"; ".rw2"; ".dng";
   ".mov"; ".mp4"; ".avi"; ".mkv";
   ".xmp"].

(** ** The program *)

Section Program.

(** [str.lower()], Python's case folding of a string. *)
Variable lower : string → string.

Variable cfg : config.

(** The strings one metadata field contributes to the keyword set. *)
Definition field_keywords (value : option jvalue) : list string :=
  match value with
  | Some (JList items) => py_str <$> items
  | Some (JStr s) => [s]
  | _ => []
  end.

(** [get_xmp_keywords]: the union of the Subject and Keywords fields of the
    first record, as a list of distinct strings; the empty list when
    exiftool fails, its output does not parse, or it has no record. The
    argument [strip_prefixes] is accepted and never used. *)
Definition get_xmp_keywords (file_path : string) (strip_prefixes : bool) : M (list string) :=
  let* result := run_exiftool file_path in
  match result with
  | ExifError => ret []
  | ExifUnparseable => ret []
  | ExifData [] => ret []
  | ExifData (metadata :: _) =>
      let keywords : gset string :=
        list_to_set (field_keywords (Subject metadata) ++ field_keywords (Keywords metadata)) in
      ret (elements keywords)
  end.

(** [get_finder_tags]: the first lines of the entries of the property
    list that [xattr -p] prints; the empty list when the command fails
    ([CalledProcessError]) or what it prints is no property list
    ([InvalidFileException]). *)
Definition get_finder_tags (file_path : string) : M (list string) :=
  let* result := run_xattr_p file_path in
  match result with
  | XTags plist_data => ret (first_line <$> plist_data)
  | XInvalid => ret []
  | XAbsent => ret []
  end.

(** [set_finder_tags]: with no tags, removes the attribute and answers
    [True] whatever the exit status. Otherwise it writes the formatted
    tags to a new temporary file and stores them with [xattr -wx]; when
    that command succeeds the temporary file is removed and the answer is
    [True]; when it fails ([CalledProcessError]) the answer is [False] and
    the temporary file stays. *)
Definition set_finder_tags (file_path : string) (tags : list string) : M bool :=
  match tags with
  | [] =>
      let* _ := run_xattr_d file_path in
      ret true
  | _ =>
      let formatted_tags := format_tag <$> tags in
      let* _ := create_temp formatted_tags in
      let* stored := run_xattr_wx file_path formatted_tags in
      if stored
      then let* _ := unlink_temp in ret true
      else ret false
  end.

(** [MARKER_KEYWORD and MARKER_KEYWORD not in raw_keywords]: the marker
    gate, a case-sensitive membership test. *)
Definition marker_missing (raw_keywords : list string) : bool :=
  match marker cfg with
  | Some m => negb (bool_decide (m ∈ raw_keywords))
  | None => false
  end.

(** [[k for k in keywords if k.lower() != MARKER_KEYWORD.lower()]], when a
    marker is configured. *)
Definition remove_marker (keywords : list string) : list string :=
  match marker cfg with
  | Some m => filter (λ k, lower k ≠ lower m) keywords
  | None => keywords
  end.

(** The last step of [process_file] (from [if merge:] to the end): the tags
    to store are the keywords, united with the existing tags in merge mode;
    they are stored unless this is a dry run. *)
Definition reconcile (file_path : string) (dry_run merge : bool) (keywords : list string)
  : M (bool * list string) :=
  let* all_tags :=
    (if merge
     then let* existing_tags := get_finder_tags file_path in
          ret (elements (list_to_set (existing_tags ++ keywords) : gset string))
     else ret keywords) in
  if dry_run then ret (true, keywords)
  else
    let* success := set_finder_tags file_path all_tags in
    ret (success, keywords).

(** [process_file]: returns [(success, keywords_found)]. *)
Definition process_file (file_path : string) (dry_run merge strip_prefixes : bool)
  : M (bool * list string) :=
  let* raw_keywords := get_xmp_keywords file_path false in
  if bool_decide (raw_keywords = []) then ret (true, [])
  else if marker_missing raw_keywords then ret (true, [])
  else
    let* keywords :=
      (if negb (eqb strip_prefixes (STRIP_HIERARCHICAL_PREFIXES cfg))
       then get_xmp_keywords file_path strip_prefixes
       else ret raw_keywords) in
    let keywords := remove_marker keywords in
    if bool_decide (is_Some (marker cfg)) && bool_decide (keywords = []) && merge
    then ret (true, [])
    else reconcile file_path dry_run merge keywords.

(** [Path.exists()]: there is a file or a directory at the path. *)
Definition path_exists (p : string) : M bool :=
  λ w, (bool_decide (is_Some (files w !! p)), w).

(** [Path.is_dir()]. *)
Definition path_is_dir (p : string) : M bool :=
  λ w, (default false (is_dir <$> files w !! p), w).

(** [process_xmp_sidecar]: applies the keywords of a sidecar file to the
    file it accompanies; returns [(success, tagged_count)]. *)
Definition process_xmp_sidecar (sidecar_path : string) (dry_run merge strip_prefixes : bool)
  : M (bool * nat) :=
  let main_file := path_with_suffix_empty sidecar_path in
  let* main_exists := path_exists main_file in
  if negb main_exists then ret (false, 0)
  else
    let* keywords := get_xmp_keywords sidecar_path strip_prefixes in
    if bool_decide (keywords = []) then ret (true, 0)
    else
      let continue (keywords : list string) : M (bool * nat) :=
        if dry_run then ret (true, 1)
        else
          let* keywords :=
            (if merge
             then let* existing := get_finder_tags main_file in
                  ret (elements (list_to_set (existing ++ keywords) : gset string))
             else ret keywords) in
          let* success := set_finder_tags main_file keywords in
          ret (success, if success then 1 else 0) in
      match marker cfg with
      | Some _ =>
          let* raw_keywords := get_xmp_keywords sidecar_path false in
          if marker_missing raw_keywords then ret (true, 0)
          else
            let keywords := remove_marker keywords in
            if bool_decide (keywords = []) then ret (true, 0)
            else continue keywords
      | None => continue keywords
      end.

(** The counters of a folder pass. *)
Record counters := {
  processed : nat;
  tagged : nat;
  errors : nat
}.

(** The body of the loop of [process_folder], for one file of the walk. *)
Definition process_entry (dry_run merge strip_prefixes : bool) (c : counters) (file_path : string)
  : M counters :=
  if negb (bool_decide (lower (path_suffix file_path) ∈ SUPPORTED_EXTENSIONS)) then ret c
  else if bool_decide (lower (path_suffix file_path) = ".xmp") then
    let* '(success, count) := process_xmp_sidecar file_path dry_run merge strip_prefixes in
    ret {| processed := processed c; tagged := tagged c + count; errors := errors c |}
  else
    let c := {| processed := processed c + 1; tagged := tagged c; errors := errors c |} in
    let* '(success, keywords) := process_file file_path dry_run merge strip_prefixes in
    if negb success
    then ret {| processed := processed c; tagged := tagged c; errors := errors c + 1 |}
    else if negb (bool_decide (keywords = []))
    then ret {| processed := processed c; tagged := tagged c + 1; errors := errors c |}
    else ret c.

(** The loop of [process_folder] over the files of the walk, in order. *)
Fixpoint process_entries (dry_run merge strip_prefixes : bool) (c : counters) (walk : list string)
  : M counters :=
  match walk with
  | [] => ret c
  | file_path :: rest =>
      let* c := process_entry dry_run merge strip_prefixes c file_path in
      process_entries dry_run merge strip_prefixes c rest
  end.

(** [os.walk(folder_path)], flattened: the regular files below the
    folder. *)
Definition os_walk (folder_path : string) : M (list string) :=
  λ w, (filter (λ p, String.prefix (folder_path +:+ "/") p = true
                     ∧ is_dir <$> files w !! p = Some false)
          (elements (dom (files w))), w).

(** [process_folder]: returns the counters [(processed, tagged, errors)]. *)
Definition process_folder (folder_path : string) (dry_run merge strip_prefixes : bool)
  : M counters :=
  let* walk := os_walk folder_path in
  process_entries dry_run merge strip_prefixes
    {| processed := 0; tagged := 0; errors := 0 |} walk.

(** *** The command line, for one path

    What [main] does when the script is started on a path with [-v] and, in
    replace mode, [-r], as the watcher starts it: nothing when the path
    does not exist; the folder pass when it is a directory; otherwise the
    extension is checked and the file is processed. Prefix stripping is
    requested in both cases. (The path is resolved first; the paths of the
    world are their own resolved form. The check that exiftool is
    installed is taken to succeed, and the run to end within the thirty
    seconds the watcher gives it.) *)
Definition main_file (path : string) (replace : bool) : M unit :=
  let* present := path_exists path in
  if negb present then ret ()
  else
    let* directory := path_is_dir path in
    if directory then
      let* _ := process_folder path false (negb replace) true in
      ret ()
    else if negb (bool_decide (lower (path_suffix path) ∈ SUPPORTED_EXTENSIONS)) then ret ()
    else
      let* _ := process_file path false (negb replace) true in
      ret ().

(** *** The watcher ([watch_directories])

    The state of the loop: the last modification time seen for each path,
    the pending batch and the time of the last accepted event. Times are
    the floats of [st_mtime] and [time.time()], taken as rationals; only
    exact comparisons are made on them. *)
Record watcher := {
  last_processed : gmap string Q;
  pending_files : gset string;
  last_event_time : option Q
}.

Definition watcher_init : watcher :=
  {| last_processed := ∅; pending_files := ∅; last_event_time := None |}.

(** What one turn of the loop observes: a line from fswatch (the empty
    line at end of stream), together with what the file system answers for
    that path ([exists()], then [stat().st_mtime] or [OSError]) and the
    clock; or the two-second timeout, with the clock. *)
Inductive observation :=
| Line (line : string) (present : bool) (st_mtime : option Q) (now : Q)
| TimedOut (now : Q).

(** The outcome of a turn: the loop goes on with a new state, handing over
    the batch it flushed (empty when it did not flush), or it ends. *)
Inductive turn :=
| Continue (st : watcher) (batch : list string)
| Break.

(** [str.strip()] on ASCII white space. *)
Fixpoint lstrip (s : string) : string :=
  match s with
  | EmptyString => EmptyString
  | String c s' => if Ascii.is_space c then lstrip s' else s
  end.

Definition strip (s : string) : string :=
  String.rev (lstrip (String.rev (lstrip s))).

(** [0 < x] and truth of a float. *)
Definition Qpositive (x : Q) : bool := negb (Qle_bool x 0).
Definition Qtruthy (x : Q) : bool := negb (Qeq_bool x 0).

(** One turn of the [while True] loop. *)
Definition watch_turn (st : watcher) (o : observation) : turn :=
  match o with
  | Line line present st_mtime now =>
      if bool_decide (line = "") then Break
      else
        let changed_path := strip line in
        if negb (bool_decide (lower (path_suffix changed_path) ∈ SUPPORTED_EXTENSIONS))
        then Continue st []
        else if negb present then Continue st []
        else
          match st_mtime with
          | None => Continue st []
          | Some mtime =>
              let last_mtime := default 0%Q (last_processed st !! changed_path) in
              if Qpositive last_mtime && Qeq_bool mtime last_mtime
              then Continue st []
              else
                Continue
                  {| last_processed := <[changed_path := mtime]> (last_processed st);
                     pending_files := {[changed_path]} ∪ pending_files st;
                     last_event_time := Some now |} []
          end
  | TimedOut now =>
      match last_event_time st with
      | Some t =>
          if negb (bool_decide (pending_files st = ∅)) && Qtruthy t && Qle_bool 1 (now - t)
          then
            Continue
              {| last_processed := last_processed st;
                 pending_files := ∅;
                 last_event_time := None |}
              (elements (pending_files st))
          else Continue st []
      | None => Continue st []
      end
  end.

(** The flush of a batch: one run of the script per file, in turn. *)
Fixpoint run_batch (merge : bool) (batch : list string) : M unit :=
  match batch with
  | [] => ret ()
  | file_path :: rest =>
      let* _ := main_file file_path (negb merge) in
      run_batch merge rest
  end.

(** The loop over a finite run of observations; it stops at [Break]. *)
Fixpoint watch_loop (merge : bool) (st : watcher) (os : list observation) : M watcher :=
  match os with
  | [] => ret st
  | o :: os' =>
      match watch_turn st o with
      | Break => ret st
      | Continue st' batch =>
          let* _ := run_batch merge batch in
          watch_loop merge st' os'
      end
  end.

End Program.

(** ** Observations on a world *)

(** The stored tag attribute of a file, and whether it may be changed. *)
Definition tag_attribute (w : world) (p : string) : xattr_value :=
  default XAbsent (user_tags <$> files w !! p).

Definition attribute_writable (w : world) (p : string) : bool :=
  default false (xattr_ok <$> files w !! p).

Definition metadata_output (w : world) (p : string) : exiftool_output :=
  default ExifError (exiftool <$> files w !! p).

(** The commands that act on the tag attribute: reads and writes. *)
Definition is_tag_command (c : command) : bool :=
  match c with
  | Exiftool _ => false
  | _ => true
  end.

Definition is_tag_write (c : command) : bool :=
  match c with
  | XattrD _ | XattrWX _ _ => true
  | _ => false
  end.

Definition tag_commands (l : list command) : list command :=
  List.filter is_tag_command l.

(** The number of writes (removals included) of the tag attribute. *)
Fixpoint tag_writes (l : list command) : nat :=
  match l with
  | [] => 0
  | c :: l' => (if is_tag_write c then 1 else 0) + tag_writes l'
  end.

(** A string without a line feed is its own first line. *)
Definition single_line (s : string) : Prop := first_line s = s.

Section Observers.

Variable lower : string → string.
Variable cfg : config.

(** RawKeywordSet: what [get_xmp_keywords] reads from the file. *)
Definition RawKeywordSet (w : world) (p : string) : list string :=
  (get_xmp_keywords p false w).1.

(** TagSet: the tags of the file, that is the names (first lines) of the
    entries stored in its tag attribute, as a set. *)
Definition TagSet (w : world) (p : string) : gset string :=
  match tag_attribute w p with
  | XTags entries => list_to_set (first_line <$> entries)
  | _ => ∅
  end.

(** The tags [get_finder_tags] reads from the file, as a set. *)
Definition ExistingTags (w : world) (p : string) : gset string :=
  list_to_set (get_finder_tags p w).1.

(** EffectiveKeywordSet: [None] is "skip" (the marker gate of
    [process_file] closed); otherwise the keywords [process_file] keeps
    after removing the marker. *)
Definition EffectiveKeywordSet (raw_keywords : list string) : option (list string) :=
  if marker_missing cfg raw_keywords then None
  else Some (remove_marker lower cfg raw_keywords).

(** Whether [process_file] gets as far as its last step. *)
Definition reconciles (raw_keywords : list string) (merge : bool) : bool :=
  negb (bool_decide (raw_keywords = []))
  && negb (marker_missing cfg raw_keywords)
  && negb (bool_decide (is_Some (marker cfg))
           && bool_decide (remove_marker lower cfg raw_keywords = []) && merge).

End Observers.

(** ** Scenarios

    Concrete files and worlds, used to run the program. *)

(** A file whose Subject and Keywords fields both list [keywords]. *)
Definition photo (keywords : list string) (tags : xattr_value) (writable : bool) : file :=
  {| is_dir := false;
     exiftool :=
       ExifData [ {| Subject := Some (JList (IStr <$> keywords));
                     Keywords := Some (JList (IStr <$> keywords));
                     HierarchicalSubject := None |} ];
     user_tags := tags;
     xattr_ok := writable |}.

(** A world with the given files, no temporary file and an empty log, in
    which [xattr -p] prints the stored bytes. *)
Definition world_with (fs : gmap string file) : world :=
  {| files := fs; temp_files := []; xattr_p_raw := true; log := [] |}.

(** A world with one file. *)
Definition world_of (p : string) (f : file) : world :=
  world_with {[ p := f ]}.

(** The same world with an [xattr] that prints values in a displayed
    form. *)
Definition displayed (w : world) : world :=
  {| files := files w; temp_files := temp_files w; xattr_p_raw := false; log := log w |}.

(** The constants with the marker switched off. *)
Definition config_without_marker : config :=
  {| MARKER_KEYWORD := None;
     STRIP_HIERARCHICAL_PREFIXES := true;
     WATCH_REPLACE_MODE := true |}.

(** A keyword of two lines. *)
Definition two_lines : string := "Red" +:+ String LF "Rose".

(** Scenario A: a marked file with a hierarchical keyword, tagged Blue. *)
Definition scenario_A : world :=
  world_of "/photos/cat.jpg"
    (photo ["sync"; "Animals|Cat"; "Red"] (XTags [format_tag "Blue"]) true).

(** Scenario B: no marker, prefixes kept; a file with one hierarchical
    keyword, tagged Old. *)
Definition config_B : config :=
  {| MARKER_KEYWORD := None;
     STRIP_HIERARCHICAL_PREFIXES := false;
     WATCH_REPLACE_MODE := true |}.

Definition scenario_B : world :=
  world_of "/photos/ab.jpg" (photo ["A|B"] (XTags [format_tag "Old"]) true).


(** A tagged file for which exiftool prints a record without keywords. *)
Definition scenario_no_keywords : world :=
  world_of "/photos/plain.jpg"
    {| is_dir := false;
       exiftool := ExifData [ {| Subject := None; Keywords := None; HierarchicalSubject := None |} ];
       user_tags := XTags [format_tag "Blue"];
       xattr_ok := true |}.

(** A marked file with a keyword of two lines: untagged, and tagged Blue. *)
Definition scenario_two_lines : world :=
  world_of "/photos/rose.jpg" (photo ["sync"; two_lines] XAbsent true).

Definition scenario_two_lines_tagged : world :=
  world_of "/photos/rose.jpg" (photo ["sync"; two_lines] (XTags [format_tag "Blue"]) true).




(** Scenario C: a file without the marker, tagged Blue; and a file that
    has the marker in another case only. *)
Definition scenario_C : world :=
  world_of "/photos/red.jpg" (photo ["Red"] (XTags [format_tag "Blue"]) true).

Definition scenario_capital : world :=
  world_of "/photos/red.jpg" (photo ["Sync"; "Red"] (XTags [format_tag "Blue"]) true).


(** Scenario D: a file whose only keyword is the marker, tagged Blue; and
    the same file when its attributes may not be changed. *)
Definition scenario_D : world :=
  world_of "/photos/only.jpg" (photo ["sync"] (XTags [format_tag "Blue"]) true).

Definition scenario_D_locked : world :=
  world_of "/photos/only.jpg" (photo ["sync"] (XTags [format_tag "Blue"]) false).

(** A folder of two files: exiftool fails on the first. *)
Definition scenario_folder : world :=
  world_with
    {[ "/photos/broken.jpg" :=
         {| is_dir := false; exiftool := ExifError;
            user_tags := XTags [format_tag "Blue"]; xattr_ok := true |};
       "/photos/red.jpg" := photo ["sync"; "Red"] XAbsent true ]}.

(** The watcher after a first notification for a file, at time 100, whose
    modification time is [m]. *)
Definition watcher_after_first (m : Q) : watcher :=
  match watch_turn lower_ascii watcher_init (Line "/photos/cat.jpg" true (Some m) 100%Q) with
  | Continue st _ => st
  | Break => watcher_init
  end.

(** ** Check mode ([--check])

    The functions that display keywords. What they print is not part of
    the world; the commands they run and the count they return are. *)

Section CheckMode.

Variable lower : string → string.

(** [get_detailed_keywords]: the three fields of the first record, each
    defaulting to the empty list, as the dictionary's items in order; the
    empty dictionary when exiftool fails, its output does not parse, or it
    has no record. *)
Definition get_detailed_keywords (file_path : string) : M (list (string * jvalue)) :=
  let* result := run_exiftool file_path in
  match result with
  | ExifError => ret []
  | ExifUnparseable => ret []
  | ExifData [] => ret []
  | ExifData (metadata :: _) =>
      ret [("Keywords", default (JList []) (Keywords metadata));
           ("Subject", default (JList []) (Subject metadata));
           ("HierarchicalSubject", default (JList []) (HierarchicalSubject metadata))]
  end.

(** [display_keywords]: reads the fields and prints them. *)
Definition display_keywords (file_path : string) : M unit :=
  let* keywords := get_detailed_keywords file_path in
  ret ().

(** The loop of [check_keywords_folder] over the files of the walk. *)
Fixpoint check_entries (file_count : nat) (walk : list string) : M nat :=
  match walk with
  | [] => ret file_count
  | file_path :: rest =>
      if negb (bool_decide (lower (path_suffix file_path) ∈ SUPPORTED_EXTENSIONS))
      then check_entries file_count rest
      else if bool_decide (lower (path_suffix file_path) = ".xmp")
      then check_entries file_count rest
      else
        let file_count := file_count + 1 in
        let* _ := display_keywords file_path in
        check_entries file_count rest
  end.

(** [check_keywords_folder]: returns the number of files displayed. *)
Definition check_keywords_folder (folder_path : string) : M nat :=
  let* walk := os_walk folder_path in
  check_entries 0 walk.

(** The files of a walk that the folder pass processes as main files:
    those with a supported extension other than [.xmp]. *)
Definition main_files (walk : list string) : list string :=
  filter (λ p, lower (path_suffix p) ∈ SUPPORTED_EXTENSIONS ∧ lower (path_suffix p) ≠ ".xmp") walk.

(** The sidecar files of a walk. *)
Definition sidecar_files (walk : list string) : list string :=
  filter (λ p, lower (path_suffix p) = ".xmp") walk.

(** The state after a notification for [changed_path], with modification
    time [mtime], is accepted at time [now]. *)
Definition accepted (st : watcher) (changed_path : string) (mtime now : Q) : watcher :=
  {| last_processed := <[changed_path := mtime]> (last_processed st);
     pending_files := {[changed_path]} ∪ pending_files st;
     last_event_time := Some now |}.

(** The state after a flush. *)
Definition flushed (st : watcher) : watcher :=
  {| last_processed := last_processed st;
     pending_files := ∅;
     last_event_time := None |}.

(** When a timeout at time [now] flushes: there is a pending batch, and
    the time of the last event is not zero and lies at least one second
    back. *)
Definition flush_due (st : watcher) (now : Q) : Prop :=
  pending_files st ≠ ∅ ∧
  ∃ t, last_event_time st = Some t ∧ ¬ (t == 0)%Q ∧ (1 <= now - t)%Q.

(** A watcher state as the loop keeps it: a pending batch has a time of
    last event, every pending path has a recorded modification time, and
    every pending path has a supported extension. *)
Definition watcher_ok (st : watcher) : Prop :=
  (pending_files st ≠ ∅ → is_Some (last_event_time st)) ∧
  pending_files st ⊆ dom (last_processed st) ∧
  (∀ p, p ∈ pending_files st → lower (path_suffix p) ∈ SUPPORTED_EXTENSIONS).

(** The turns of the loop without the flushes' processing: the state
    after a run of observations and the batches flushed, in order; the run
    stops at the end of the stream. *)
Fixpoint watch_turns (st : watcher) (os : list observation) : watcher * list (list string) :=
  match os with
  | [] => (st, [])
  | o :: os' =>
      match watch_turn lower st o with
      | Break => (st, [])
      | Continue st' batch =>
          let '(st'', batches) := watch_turns st' os' in
          (st'', if bool_decide (batch = []) then batches else batch :: batches)
      end
  end.

End CheckMode.

(** The last step of [process_xmp_sidecar] (from [if dry_run:] to the
    end), for the keywords that are left: they are stored on the main
    file, united with its tags in merge mode. *)
Definition sidecar_store (main_file : string) (dry_run merge : bool) (keywords : list string)
  : M (bool * nat) :=
  if dry_run then ret (true, 1)
  else
    let* keywords :=
      (if merge
       then let* existing := get_finder_tags main_file in
            ret (elements (list_to_set (existing ++ keywords) : gset string))
       else ret keywords) in
    let* success := set_finder_tags main_file keywords in
    ret (success, if success then 1 else 0).

(** The commands a sidecar file may cause: a metadata read of the sidecar,
    a read of the tags of the main file, a write of a non-empty list of
    entries to the main file. *)
Definition sidecar_command (sidecar_path : string) (c : command) : Prop :=
  c = Exiftool sidecar_path ∨
  c = XattrP (path_with_suffix_empty sidecar_path) ∨
  ∃ entries, entries ≠ [] ∧ c = XattrWX (path_with_suffix_empty sidecar_path) entries.

(** ** Relations between the world before and after a computation *)

(** A computation keeps a relation when every run of it relates the world
    before to the world after. *)
Definition keeps {A} (R : relation world) (c : M A) : Prop :=
  ∀ w, R w (c w).2.

(** A computation returns a result with property [Q], whatever the
    world. *)
Definition returns {A} (Q : A → Prop) (c : M A) : Prop :=
  ∀ w, Q (c w).1.

(** Only tag attributes differ: the same files and directories exist,
    with the same metadata and the same permission. *)
Definition same_but_tags (w w' : world) : Prop :=
  ∀ q, (λ f, (is_dir f, exiftool f, xattr_ok f)) <$> files w' !! q
       = (λ f, (is_dir f, exiftool f, xattr_ok f)) <$> files w !! q.

(** The tool is the same, and when it prints the stored bytes no file
    loses a tag. *)
Definition tags_grow (w w' : world) : Prop :=
  xattr_p_raw w' = xattr_p_raw w ∧
  (xattr_p_raw w = true → ∀ q, TagSet w q ⊆ TagSet w' q).

(** The temporary files that were there are still there; those in front
    of them are new. *)
Definition temp_files_grow (w w' : world) : Prop :=
  ∃ new, temp_files w' = new ++ temp_files w.

(** No temporary file appears or disappears. *)
Definition same_temp_files (w w' : world) : Prop :=
  temp_files w' = temp_files w.

(** What a write leaves in the temporary directory: nothing when it
    succeeds, one file when it fails. *)
Definition leaves_temp (success : bool) (w w' : world) : Prop :=
  if success then temp_files w' = temp_files w
  else ∃ entries, temp_files w' = entries :: temp_files w.

(** No file or directory changes. (Here and below, the temporary files
    of the program are counted apart, in [temp_files].) *)
Definition same_files (w w' : world) : Prop :=
  files w' = files w.

(** No file or directory other than [p] changes. *)
Definition same_files_but (p : string) (w w' : world) : Prop :=
  ∀ q, q ≠ p → files w' !! q = files w !! q.

(** No file or directory changes except, possibly, those whose path
    satisfies [P]. *)
Definition same_files_except (P : string → Prop) (w w' : world) : Prop :=
  ∀ q, ¬ P q → files w' !! q = files w !! q.

(** The path [q] is [p] itself or lies below the directory [p]. *)
Definition reaches (p q : string) : Prop :=
  q = p ∨ String.prefix (p +:+ "/") q = true.

(** The log grows by commands that all satisfy [P]. *)
Definition log_grows_by (P : command → Prop) (w w' : world) : Prop :=
  ∃ cmds, log w' = cmds ++ log w ∧ Forall P cmds.

(** ** Further scenarios *)

(** A file tagged Blue with colour 6. *)
Definition scenario_coloured : world :=
  world_of "/photos/cat.jpg"
    (photo ["sync"; "Red"] (XTags ["Blue" +:+ String LF "6"]) true).

(** A marked file, tagged Blue, whose attributes may not be changed. *)
Definition scenario_locked : world :=
  world_of "/photos/cat.jpg" (photo ["sync"; "Red"] (XTags [format_tag "Blue"]) false).

(** A main file tagged Blue with its sidecar, which carries the keywords;
    and the same when the attributes of the main file may not be changed. *)
Definition scenario_sidecar : world :=
  world_with
    {[ "/photos/cat.jpg" := photo [] (XTags [format_tag "Blue"]) true;
       "/photos/cat.jpg.xmp" := photo ["sync"; "Red"] XAbsent true ]}.

Definition scenario_sidecar_locked : world :=
  world_with
    {[ "/photos/cat.jpg" := photo [] (XTags [format_tag "Blue"]) false;
       "/photos/cat.jpg.xmp" := photo ["sync"; "Red"] XAbsent true ]}.

(** A directory, a sidecar named after it, and a file in it. *)
Definition scenario_album : world :=
  world_with
    {[ "/photos/album" :=
         {| is_dir := true; exiftool := ExifError; user_tags := XAbsent; xattr_ok := true |};
       "/photos/album.xmp" := photo ["sync"; "Red"] XAbsent true;
       "/photos/album/cat.jpg" := photo ["sync"; "Blue"] XAbsent true ]}.

(** A sidecar whose main file does not exist. *)
Definition scenario_orphan : world :=
  world_of "/photos/gone.jpg.xmp" (photo ["sync"; "Red"] XAbsent true).


(** A burst of three notifications for one file, and a notification for a
    sidecar followed by a timeout that flushes it. *)
Definition burst : list observation :=
  [Line "/photos/cat.jpg" true (Some 1%Q) 100%Q;
   Line "/photos/cat.jpg" true (Some 2%Q) (1001 # 10)%Q;
   Line "/photos/cat.jpg" true (Some 2%Q) (1002 # 10)%Q].

Definition sidecar_notified : list observation :=
  [Line "/photos/cat.jpg.xmp" true (Some 5%Q) 100%Q; TimedOut 102%Q].

(** ** How the functions act on the observations *)

Section Properties.
Variable lower : string → string.
Variable cfg : config.

(** *** Strings *)

Lemma single_line_iff s : single_line s ↔ has_line_feed s = false.
Proof.
  unfold single_line. induction s as [|c s IH]; simpl; [done|].
  destruct (Ascii.eqb c LF); simpl.
  - split; discriminate.
  - rewrite <- IH. split; [intros [= ->]; reflexivity|intros ->; reflexivity].
Qed.

(** *** Reading *)

Lemma get_xmp_keywords_eq p b w :
  get_xmp_keywords p b w = (RawKeywordSet w p, logged (Exiftool p) w).
Proof.
  unfold RawKeywordSet, get_xmp_keywords, bind, run_exiftool, ret.
  destruct (default ExifError _) as [| |[|md data]]; reflexivity.
Qed.

Lemma RawKeywordSet_frame w w' p :
  metadata_output w' p = metadata_output w p →
  RawKeywordSet w' p = RawKeywordSet w p.
Proof.
  unfold RawKeywordSet, get_xmp_keywords, bind, run_exiftool, metadata_output.
  intros ->. destruct (default ExifError _) as [| |[|md data]]; reflexivity.
Qed.

Lemma get_finder_tags_eq p w :
  get_finder_tags p w = ((get_finder_tags p w).1, logged (XattrP p) w).
Proof.
  unfold get_finder_tags, bind, run_xattr_p, ret.
  destruct (printed _ _); reflexivity.
Qed.

Lemma TagSet_attribute w p :
  TagSet w p =
  match tag_attribute w p with
  | XTags entries => list_to_set (first_line <$> entries)
  | _ => ∅
  end.
Proof. reflexivity. Qed.

(** What [get_finder_tags] reads: the tags of the file when [xattr -p]
    prints the stored bytes, and nothing otherwise. *)
Lemma ExistingTags_eq w p :
  ExistingTags w p = if xattr_p_raw w then TagSet w p else ∅.
Proof.
  unfold ExistingTags, TagSet, get_finder_tags, bind, run_xattr_p, ret, tag_attribute, printed.
  destruct (default XAbsent _), (xattr_p_raw w); reflexivity.
Qed.

Lemma ExistingTags_subseteq w p : ExistingTags w p ⊆ TagSet w p.
Proof. rewrite ExistingTags_eq. destruct (xattr_p_raw w); [done|apply empty_subseteq]. Qed.

Lemma tag_attribute_set p v w :
  tag_attribute (set_user_tags p v w) p =
  if bool_decide (is_Some (files w !! p)) then v else XAbsent.
Proof.
  unfold tag_attribute, set_user_tags. simpl.
  rewrite lookup_alter_eq.
  destruct (files w !! p) as [f|]; reflexivity.
Qed.



Lemma writable_present w p :
  attribute_writable w p = true → is_Some (files w !! p).
Proof.
  unfold attribute_writable. destruct (files w !! p); [eauto|discriminate].
Qed.


Lemma first_line_format_tag tag : first_line (format_tag tag) = first_line tag.
Proof.
  induction tag as [|c tag IH]; [reflexivity|].
  change (format_tag (String c tag)) with (String c (format_tag tag)).
  simpl. rewrite IH. reflexivity.
Qed.

Lemma first_line_idemp s : first_line (first_line s) = first_line s.
Proof.
  induction s as [|c s IH]; [reflexivity|].
  simpl. destruct (Ascii.eqb c LF) eqn:E; [reflexivity|].
  simpl. rewrite E, IH. reflexivity.
Qed.

Lemma first_line_formatted (tags : list string) :
  first_line <$> (format_tag <$> tags) = first_line <$> tags.
Proof.
  rewrite <- list_fmap_compose. apply list_fmap_ext.
  intros _ tag _. apply first_line_format_tag.
Qed.

Lemma single_line_fmap (l : list string) :
  Forall single_line l → first_line <$> l = l.
Proof.
  induction 1 as [|k l Hk _ IH]; [reflexivity|].
  rewrite fmap_cons, Hk, IH. reflexivity.
Qed.

(** What [set_finder_tags] does, case by case: a removal; a write that
    succeeds, after which the temporary file is gone again; a write that
    fails, after which the temporary file is left. *)
Lemma set_finder_tags_eq p tags w :
  set_finder_tags p tags w =
  if bool_decide (tags = []) then (true, (run_xattr_d p w).2)
  else if attribute_writable w p
  then (true, set_user_tags p (XTags (format_tag <$> tags))
                (logged (XattrWX p (format_tag <$> tags)) w))
  else (false, set_temp_files ((format_tag <$> tags) :: temp_files w)
                 (logged (XattrWX p (format_tag <$> tags)) w)).
Proof.
  unfold set_finder_tags, attribute_writable. destruct tags as [|t tags].
  - unfold bind, ret. destruct (run_xattr_d p w); reflexivity.
  - rewrite bool_decide_eq_false_2 by discriminate.
    unfold bind, ret, create_temp, run_xattr_wx, unlink_temp. simpl.
    destruct (files w !! p) as [f|]; [|reflexivity].
    simpl. destruct (xattr_ok f); reflexivity.
Qed.

Lemma run_xattr_d_cases p w :
  (run_xattr_d p w).2 = logged (XattrD p) w ∨
  (run_xattr_d p w).2 = set_user_tags p XAbsent (logged (XattrD p) w).
Proof.
  unfold run_xattr_d. destruct (files w !! p) as [f|]; [|left; reflexivity].
  destruct (_ && _); [right|left]; reflexivity.
Qed.

Lemma set_finder_tags_TagSet p tags w :
  TagSet (set_finder_tags p tags w).2 p =
  if attribute_writable w p then list_to_set (first_line <$> tags) else TagSet w p.
Proof.
  rewrite set_finder_tags_eq. unfold TagSet.
  case_bool_decide as Ht; simpl.
  - subst tags. unfold run_xattr_d, attribute_writable, tag_attribute.
    destruct (files w !! p) as [f|] eqn:Hf; simpl; [|rewrite Hf; reflexivity].
    destruct (xattr_ok f) eqn:Hok; simpl.
    + case_bool_decide as Habs; simpl.
      * rewrite Hf. simpl. rewrite Habs. reflexivity.
      * rewrite lookup_alter_eq, Hf. reflexivity.
    + rewrite Hf. reflexivity.
  - destruct (attribute_writable w p) eqn:Hwr; simpl; [|reflexivity].
    rewrite tag_attribute_set. simpl.
    rewrite bool_decide_eq_true_2 by (apply writable_present, Hwr).
    rewrite first_line_formatted. reflexivity.
Qed.

Lemma set_finder_tags_success p tags w :
  (set_finder_tags p tags w).1 =
  if bool_decide (tags = []) then true else attribute_writable w p.
Proof.
  rewrite set_finder_tags_eq. case_bool_decide; [reflexivity|].
  destruct (attribute_writable w p); reflexivity.
Qed.

Lemma set_finder_tags_log p tags w :
  log (set_finder_tags p tags w).2 =
  (if bool_decide (tags = []) then XattrD p else XattrWX p (format_tag <$> tags)) :: log w.
Proof.
  rewrite set_finder_tags_eq. case_bool_decide.
  - destruct (run_xattr_d_cases p w) as [-> | ->]; reflexivity.
  - destruct (attribute_writable w p); reflexivity.
Qed.


Lemma set_finder_tags_tool p tags w :
  xattr_p_raw (set_finder_tags p tags w).2 = xattr_p_raw w.
Proof.
  rewrite set_finder_tags_eq. case_bool_decide.
  - destruct (run_xattr_d_cases p w) as [-> | ->]; reflexivity.
  - destruct (attribute_writable w p); reflexivity.
Qed.

Lemma current_tags_single_line p w :
  Forall single_line (get_finder_tags p w).1.
Proof.
  unfold get_finder_tags, bind, ret, run_xattr_p.
  destruct (printed _ _) as [| |entries]; simpl; [constructor..|].
  apply Forall_fmap, Forall_forall. intros x _. apply first_line_idemp.
Qed.

Lemma TagSet_logged c w p : TagSet (logged c w) p = TagSet w p.
Proof. reflexivity. Qed.

Lemma ExistingTags_logged c w p : ExistingTags (logged c w) p = ExistingTags w p.
Proof. rewrite !ExistingTags_eq. reflexivity. Qed.

Lemma reconcile_eq p dry merge keywords w :
  reconcile p dry merge keywords w =
  let w1 := if merge then logged (XattrP p) w else w in
  let all_tags :=
    if merge then elements (list_to_set ((get_finder_tags p w).1 ++ keywords) : gset string)
    else keywords in
  if dry then ((true, keywords), w1)
  else ((set_finder_tags p all_tags w1).1, keywords, (set_finder_tags p all_tags w1).2).
Proof.
  unfold reconcile, bind, ret.
  destruct merge; simpl.
  - rewrite get_finder_tags_eq. simpl.
    destruct dry; [reflexivity|].
    destruct (set_finder_tags _ _ _); reflexivity.
  - destruct dry; [reflexivity|].
    destruct (set_finder_tags _ _ _); reflexivity.
Qed.

Lemma merged_first_lines (existing keywords : list string) :
  Forall single_line existing →
  list_to_set (first_line <$> elements (list_to_set (existing ++ keywords) : gset string))
  = (list_to_set existing ∪ list_to_set (first_line <$> keywords) : gset string).
Proof.
  intros Hex. apply set_eq. intros x.
  rewrite elem_of_union, !elem_of_list_to_set, !list_elem_of_fmap.
  split.
  - intros (y & -> & Hy).
    apply elem_of_elements, elem_of_list_to_set, elem_of_app in Hy as [Hy|Hy].
    + left. rewrite Forall_forall in Hex. rewrite (Hex y Hy). done.
    + right. eauto.
  - intros [Hx|(y & -> & Hy)].
    + exists x. rewrite Forall_forall in Hex. split; [symmetry; apply (Hex x Hx)|].
      apply elem_of_elements, elem_of_list_to_set, elem_of_app. auto.
    + exists y. split; [done|].
      apply elem_of_elements, elem_of_list_to_set, elem_of_app. auto.
Qed.

Lemma reconcile_TagSet p dry merge keywords w :
  TagSet (reconcile p dry merge keywords w).2 p =
  if dry || negb (attribute_writable w p) then TagSet w p
  else if merge then ExistingTags w p ∪ list_to_set (first_line <$> keywords)
  else list_to_set (first_line <$> keywords).
Proof.
  rewrite reconcile_eq. cbv zeta.
  destruct dry; simpl; [destruct merge; [apply TagSet_logged|reflexivity]|].
  rewrite set_finder_tags_TagSet.
  destruct merge; simpl.
  - change (attribute_writable (logged (XattrP p) w) p) with (attribute_writable w p).
    rewrite TagSet_logged.
    destruct (attribute_writable w p); simpl; [|reflexivity].
    apply merged_first_lines, current_tags_single_line.
  - destruct (attribute_writable w p); reflexivity.
Qed.



Lemma RawKeywordSet_logged c w p : RawKeywordSet (logged c w) p = RawKeywordSet w p.
Proof. apply RawKeywordSet_frame. reflexivity. Qed.

Lemma process_file_eq p dry merge strip w :
  process_file lower cfg p dry merge strip w =
  let raw_keywords := RawKeywordSet w p in
  let w1 := logged (Exiftool p) w in
  if bool_decide (raw_keywords = []) then ((true, []), w1)
  else if marker_missing cfg raw_keywords then ((true, []), w1)
  else
    let w2 :=
      if negb (eqb strip (STRIP_HIERARCHICAL_PREFIXES cfg))
      then logged (Exiftool p) w1 else w1 in
    let keywords := remove_marker lower cfg raw_keywords in
    if bool_decide (is_Some (marker cfg)) && bool_decide (keywords = []) && merge
    then ((true, []), w2)
    else reconcile p dry merge keywords w2.
Proof.
  unfold process_file, bind. rewrite get_xmp_keywords_eq. cbv zeta.
  case_bool_decide; [reflexivity|].
  destruct (marker_missing cfg _); [reflexivity|].
  destruct (negb (eqb strip _)).
  - rewrite get_xmp_keywords_eq, RawKeywordSet_logged.
    destruct (_ && _ && _); reflexivity.
  - unfold ret. destruct (_ && _ && _); reflexivity.
Qed.


Lemma reconcile_tag_writes p dry merge keywords w :
  tag_writes (log (reconcile p dry merge keywords w).2) =
  tag_writes (log w) + (if dry then 0 else 1).
Proof.
  rewrite reconcile_eq. cbv zeta.
  destruct dry; simpl.
  - destruct merge; simpl; lia.
  - rewrite set_finder_tags_log.
    destruct merge; case_bool_decide; simpl; lia.
Qed.


Lemma process_file_TagSet p dry merge strip w :
  TagSet (process_file lower cfg p dry merge strip w).2 p =
  if reconciles lower cfg (RawKeywordSet w p) merge && negb dry && attribute_writable w p
  then
    if merge
    then ExistingTags w p ∪ list_to_set (first_line <$> remove_marker lower cfg (RawKeywordSet w p))
    else list_to_set (first_line <$> remove_marker lower cfg (RawKeywordSet w p))
  else TagSet w p.
Proof.
  rewrite process_file_eq. unfold reconciles. cbv zeta.
  case_bool_decide; simpl; [apply TagSet_logged|].
  destruct (marker_missing cfg _); simpl; [apply TagSet_logged|].
  destruct (_ && _ && _); simpl.
  - destruct (negb (eqb _ _)); rewrite !TagSet_logged; reflexivity.
  - rewrite reconcile_TagSet.
    assert (Hw : ∀ w', (if negb (eqb strip (STRIP_HIERARCHICAL_PREFIXES cfg))
                        then logged (Exiftool p) (logged (Exiftool p) w)
                        else logged (Exiftool p) w) = w' →
                 attribute_writable w' p = attribute_writable w p ∧ TagSet w' p = TagSet w p
                 ∧ ExistingTags w' p = ExistingTags w p).
    { intros w' <-. destruct (negb _); rewrite !TagSet_logged, !ExistingTags_logged; done. }
    destruct (Hw _ eq_refl) as (-> & -> & ->).
    destruct dry, (attribute_writable w p); reflexivity.
Qed.



Lemma process_file_tag_writes p dry merge strip w :
  tag_writes (log (process_file lower cfg p dry merge strip w).2) =
  tag_writes (log w) + (if reconciles lower cfg (RawKeywordSet w p) merge && negb dry then 1 else 0).
Proof.
  rewrite process_file_eq. unfold reconciles. cbv zeta.
  case_bool_decide; simpl; [lia|].
  destruct (marker_missing cfg _); simpl; [lia|].
  destruct (_ && _ && _); simpl.
  - destruct (negb (eqb _ _)); simpl; lia.
  - rewrite reconcile_tag_writes.
    destruct (negb (eqb _ _)), dry; simpl; lia.
Qed.


Lemma set_finder_tags_clear p w :
  attribute_writable w p = true →
  tag_attribute (set_finder_tags p [] w).2 p = XAbsent.
Proof.
  unfold set_finder_tags, bind, ret, run_xattr_d, attribute_writable, tag_attribute.
  destruct (files w !! p) as [f|] eqn:Hf; [|discriminate].
  simpl. intros ->. simpl.
  case_bool_decide as Habs; simpl.
  - rewrite Hf. exact Habs.
  - rewrite lookup_alter_eq, Hf. reflexivity.
Qed.

(** ** The claims *)

(** C6. With a marker keyword configured and absent (compared exactly, case
    included) from the raw keywords of a file, [process_file] skips the
    file in merge and in replace mode alike: it answers [(True, [])], and
    the world afterwards is the world before with the one metadata read
    added to the log, so no tag command is run and no file changes. *)
Theorem marker_gate_skips p dry merge strip w m :
  marker cfg = Some m →
  m ∉ RawKeywordSet w p →
  process_file lower cfg p dry merge strip w = ((true, []), logged (Exiftool p) w).
Proof.
  intros Hm Hnot. rewrite process_file_eq. cbv zeta.
  case_bool_decide; [reflexivity|].
  unfold marker_missing. rewrite Hm.
  rewrite bool_decide_eq_false_2; done.
Qed.


(** C10. Clearing the tags always reports success: [set_finder_tags] with
    no tags answers [True] in every world; when the removal command fails
    the attribute is left as it was and the answer is still [True]; and so
    [process_file], in replace mode on a file whose keywords are all
    removed as markers, answers [(True, [])] whether or not the removal
    worked, and the folder pass counts no error for it. *)
Theorem clear_reports_success p w :
  (set_finder_tags p [] w).1 = true ∧
  ((run_xattr_d p w).1 = false →
     set_finder_tags p [] w = (true, logged (XattrD p) w)) ∧
  (∀ dry strip c,
     RawKeywordSet w p ≠ [] →
     EffectiveKeywordSet lower cfg (RawKeywordSet w p) = Some [] →
     (process_file lower cfg p dry false strip w).1 = (true, []) ∧
     (lower (path_suffix p) ∈ SUPPORTED_EXTENSIONS →
      lower (path_suffix p) ≠ ".xmp" →
      errors (process_entry lower cfg dry false strip c p w).1 = errors c)).
Proof.
  split; [|split].
  - rewrite set_finder_tags_success. reflexivity.
  - unfold set_finder_tags, bind, ret, run_xattr_d.
    destruct (files w !! p) as [f|]; [|reflexivity].
    destruct (_ && _); [discriminate|reflexivity].
  - intros dry strip c Hraw Heff.
    assert (Hres : (process_file lower cfg p dry false strip w).1 = (true, [])).
    { rewrite process_file_eq. cbv zeta.
      unfold EffectiveKeywordSet in Heff.
      rewrite bool_decide_eq_false_2 by done.
      destruct (marker_missing cfg _); [discriminate|].
      injection Heff as ->.
      rewrite andb_false_r, reconcile_eq. cbv zeta.
      destruct dry; cbn -[set_finder_tags]; [reflexivity|].
      rewrite set_finder_tags_success. reflexivity. }
    split; [exact Hres|].
    intros Hsup Hxmp. unfold process_entry, bind, ret.
    rewrite bool_decide_eq_true_2 by done.
    rewrite bool_decide_eq_false_2 by done. simpl.
    destruct (process_file lower cfg p dry false strip w) as [[success keywords] w'].
    simpl in Hres. injection Hres as -> ->. reflexivity.
Qed.


(** C3, as the code has it. With an empty EffectiveKeywordSet, merge mode
    runs no tag command and changes no file; replace mode, when the raw
    keywords are not empty (they were all removed as markers), runs the
    removal of the tag attribute, answers success, and leaves the attribute
    absent when the removal is permitted; and a file with no raw keyword at
    all is skipped in both modes, no tag command run and no file changed. *)
Theorem empty_keywords p dry strip w :
  EffectiveKeywordSet lower cfg (RawKeywordSet w p) = Some [] →
  (let w' := (process_file lower cfg p dry true strip w).2 in
   files w' = files w ∧ tag_commands (log w') = tag_commands (log w)) ∧
  (RawKeywordSet w p ≠ [] →
   let r := process_file lower cfg p false false strip w in
   r.1 = (true, []) ∧ head (log r.2) = Some (XattrD p) ∧
   (attribute_writable w p = true → tag_attribute r.2 p = XAbsent ∧ TagSet r.2 p = ∅)) ∧
  (RawKeywordSet w p = [] →
   ∀ merge, let w' := (process_file lower cfg p dry merge strip w).2 in
   files w' = files w ∧ tag_commands (log w') = tag_commands (log w)).
Proof.
  intros Heff. unfold EffectiveKeywordSet in Heff.
  destruct (marker_missing cfg (RawKeywordSet w p)) eqn:Hgate; [discriminate|].
  injection Heff as Hempty.
  split; [|split].
  - intros w'. subst w'. rewrite process_file_eq. cbv zeta.
    case_bool_decide as Hraw; [done|].
    rewrite Hgate, Hempty.
    assert (Hm : is_Some (marker cfg)).
    { unfold remove_marker in Hempty. destruct (marker cfg); [eauto|done]. }
    rewrite bool_decide_eq_true_2 by done. simpl.
    destruct (negb _); done.
  - intros Hraw r. subst r. rewrite process_file_eq. cbv zeta.
    rewrite bool_decide_eq_false_2 by done.
    rewrite Hgate, Hempty, andb_false_r, reconcile_eq. cbv zeta. cbn -[set_finder_tags].
    rewrite set_finder_tags_success, set_finder_tags_log.
    split; [reflexivity|]. split; [reflexivity|].
    intros Hok.
    assert (Hset : TagSet (set_finder_tags p []
              (if negb (eqb strip (STRIP_HIERARCHICAL_PREFIXES cfg))
               then logged (Exiftool p) (logged (Exiftool p) w)
               else logged (Exiftool p) w)).2 p = ∅).
    { rewrite set_finder_tags_TagSet.
      replace (attribute_writable _ p) with true; [reflexivity|].
      rewrite <- Hok. destruct (negb _); reflexivity. }
    split; [|exact Hset].
    apply set_finder_tags_clear. rewrite <- Hok. destruct (negb _); reflexivity.
  - intros Hraw merge w'. subst w'. rewrite process_file_eq. cbv zeta.
    rewrite bool_decide_eq_true_2 by done. done.
Qed.

(** C4, as the code has it. In replace mode, when changing the attribute
    is permitted, the last step of [process_file] leaves as TagSet the
    first lines of the keywords, whatever the tags were before: the
    keywords themselves when none of them contains a line feed, and the
    attribute absent when there is no keyword. The same holds for
    [process_file] as a whole on a file with raw keywords. *)
Theorem replace_exact p keywords w :
  attribute_writable w p = true →
  let w' := (reconcile p false false keywords w).2 in
  TagSet w' p = list_to_set (first_line <$> keywords) ∧
  (Forall single_line keywords → TagSet w' p = list_to_set keywords) ∧
  (keywords = [] → tag_attribute w' p = XAbsent) ∧
  (∀ strip,
     RawKeywordSet w p ≠ [] →
     EffectiveKeywordSet lower cfg (RawKeywordSet w p) = Some keywords →
     Forall single_line keywords →
     TagSet (process_file lower cfg p false false strip w).2 p = list_to_set keywords).
Proof.
  intros Hok w'. subst w'.
  assert (Hset : TagSet (reconcile p false false keywords w).2 p
                 = list_to_set (first_line <$> keywords)).
  { rewrite reconcile_TagSet, Hok. reflexivity. }
  split; [exact Hset|]. split; [|split].
  - intros Hlines. rewrite Hset, single_line_fmap by done. reflexivity.
  - intros ->. rewrite reconcile_eq. cbv zeta. cbn -[set_finder_tags].
    apply set_finder_tags_clear, Hok.
  - intros strip Hraw Heff Hlines.
    unfold EffectiveKeywordSet in Heff.
    destruct (marker_missing cfg (RawKeywordSet w p)) eqn:Hgate; [discriminate|].
    injection Heff as Hkw.
    rewrite process_file_TagSet. unfold reconciles.
    rewrite bool_decide_eq_false_2 by done.
    rewrite Hgate, Hok, Hkw, andb_false_r. simpl.
    rewrite single_line_fmap by done. reflexivity.
Qed.

(** C5, as the code has it. Let [xattr -p] print the stored bytes, so that
    [get_finder_tags] reads the tags of the file. Then in merge mode the
    last step of [process_file] never removes a tag: the TagSet afterwards
    includes the TagSet before. When the tags are stored (no dry run,
    change permitted) the TagSet afterwards is the TagSet before united
    with the first lines of the keywords, which is the union with the
    keywords themselves when none of them contains a line feed.
    [process_file] as a whole, in merge mode, never removes a tag either,
    and under the same conditions leaves the TagSet before united with its
    EffectiveKeywordSet. *)
Theorem merge_union p dry keywords w :
  xattr_p_raw w = true →
  let w' := (reconcile p dry true keywords w).2 in
  TagSet w p ⊆ TagSet w' p ∧
  (dry = false → attribute_writable w p = true →
   TagSet w' p = TagSet w p ∪ list_to_set (first_line <$> keywords) ∧
   (Forall single_line keywords → TagSet w' p = TagSet w p ∪ list_to_set keywords)) ∧
  (∀ strip,
     let w'' := (process_file lower cfg p dry true strip w).2 in
     TagSet w p ⊆ TagSet w'' p ∧
     (dry = false → attribute_writable w p = true →
      EffectiveKeywordSet lower cfg (RawKeywordSet w p) = Some keywords →
      Forall single_line keywords →
      TagSet w'' p = TagSet w p ∪ list_to_set keywords)).
Proof.
  intros Htool w'. subst w'.
  assert (Hread : ExistingTags w p = TagSet w p) by (rewrite ExistingTags_eq, Htool; reflexivity).
  split; [|split].
  - rewrite reconcile_TagSet, Hread.
    destruct (dry || negb (attribute_writable w p)); [done|].
    apply union_subseteq_l.
  - intros -> Hok. rewrite reconcile_TagSet, Hread, Hok. simpl.
    split; [reflexivity|].
    intros Hlines. rewrite single_line_fmap by done. reflexivity.
  - intros strip w''. subst w''. rewrite process_file_TagSet, Hread. split.
    + destruct (_ && _ && _); [|done]. apply union_subseteq_l.
    + intros -> Hok Heff Hlines. rewrite Hok.
      unfold EffectiveKeywordSet in Heff.
      destruct (marker_missing cfg (RawKeywordSet w p)) eqn:Hgate; [discriminate|].
      injection Heff as Hkw. rewrite Hkw, single_line_fmap by done.
      destruct (reconciles lower cfg (RawKeywordSet w p) true) eqn:Hrec; [reflexivity|].
      simpl. unfold reconciles in Hrec. rewrite Hgate, Hkw in Hrec.
      assert (Hnil : keywords = []).
      { case_bool_decide as Hraw.
        - rewrite <- Hkw, Hraw. unfold remove_marker. destruct (marker cfg); reflexivity.
        - simpl in Hrec. rewrite andb_true_r in Hrec.
          apply negb_false_iff, andb_true_iff in Hrec as [_ Hk].
          apply bool_decide_eq_true in Hk. exact Hk. }
      rewrite Hnil. simpl. rewrite (right_id_L ∅ (∪)). reflexivity.
Qed.

(** C8, as the code has it. When the metadata read of a file fails
    (exiftool exits with an error, or its output does not parse),
    [process_file] takes the file to have no keywords: it answers
    [(True, [])] and runs no tag command. The folder pass therefore counts
    the file as processed, counts no error for it, and goes on with the
    remaining files. *)
Theorem metadata_failure_skipped p rest c dry merge strip w :
  metadata_output w p = ExifError ∨ metadata_output w p = ExifUnparseable →
  lower (path_suffix p) ∈ SUPPORTED_EXTENSIONS →
  lower (path_suffix p) ≠ ".xmp" →
  process_file lower cfg p dry merge strip w = ((true, []), logged (Exiftool p) w) ∧
  process_entries lower cfg dry merge strip c (p :: rest) w =
  process_entries lower cfg dry merge strip
    {| processed := processed c + 1; tagged := tagged c; errors := errors c |}
    rest (logged (Exiftool p) w).
Proof.
  intros Hfail Hsup Hxmp.
  assert (Hraw : RawKeywordSet w p = []).
  { unfold RawKeywordSet, get_xmp_keywords, bind, run_exiftool.
    fold (metadata_output w p). destruct Hfail as [-> | ->]; reflexivity. }
  assert (Hres : process_file lower cfg p dry merge strip w
                 = ((true, []), logged (Exiftool p) w)).
  { rewrite process_file_eq. cbv zeta. rewrite Hraw. reflexivity. }
  split; [exact Hres|].
  cbn [process_entries]. unfold bind at 1. unfold process_entry, bind, ret.
  rewrite bool_decide_eq_true_2 by done.
  rewrite bool_decide_eq_false_2 by done. simpl.
  rewrite Hres. reflexivity.
Qed.

(** X29. When two notifications arrive for the same path with the same
    modification time, the second one adds nothing to the pending batch,
    which holds each path once; and when that modification time is
    positive the second notification is discarded outright: the state of
    the watcher does not change. *)
Theorem duplicate_discarded st line m m' t1 t2 st1 b1 :
  watch_turn lower st (Line line true (Some m) t1) = Continue st1 b1 →
  (m' == m)%Q →
  ((0 < m)%Q → watch_turn lower st1 (Line line true (Some m') t2) = Continue st1 []) ∧
  (∃ st2, watch_turn lower st1 (Line line true (Some m') t2) = Continue st2 [] ∧
          pending_files st2 = pending_files st1 ∧
          NoDup (elements (pending_files st2)) ∧
          (lower (path_suffix (strip line)) ∈ SUPPORTED_EXTENSIONS →
           last_processed st !! strip line = None →
           strip line ∈ pending_files st2)).
Proof.
  unfold watch_turn.
  case_bool_decide as Hline; [discriminate|].
  case_bool_decide as Hsup; simpl.
  2:{ intros [= <- <-] _. split; [reflexivity|].
      eexists; split; [reflexivity|]. split; [reflexivity|].
      split; [apply NoDup_elements|]. intros Hs. destruct (Hsup Hs). }
  destruct (Qpositive (default 0%Q (last_processed st !! strip line))
            && Qeq_bool m (default 0%Q (last_processed st !! strip line))) eqn:Hdup.
  { intros [= <- <-] Heq.
    apply andb_true_iff in Hdup as [Hpos Hsame].
    apply Qeq_bool_iff in Hsame.
    assert (Hsame' : Qeq_bool m' (default 0%Q (last_processed st !! strip line)) = true).
    { apply Qeq_bool_iff. rewrite Heq. exact Hsame. }
    rewrite Hpos, Hsame'. simpl. split; [reflexivity|].
    eexists; split; [reflexivity|]. split; [reflexivity|].
    split; [apply NoDup_elements|]. intros _ Hnone.
    rewrite Hnone in Hpos. discriminate. }
  intros [= <- <-] Heq. simpl. rewrite lookup_insert_eq. simpl.
  assert (Hsame : Qeq_bool m' m = true) by (apply Qeq_bool_iff; exact Heq).
  rewrite Hsame, andb_true_r.
  split.
  - intros Hpos. unfold Qpositive.
    destruct (Qle_bool m 0) eqn:Hle; [|reflexivity].
    apply Qle_bool_iff in Hle. destruct (Qlt_not_le _ _ Hpos Hle).
  - destruct (Qpositive m);
      (eexists; split; [reflexivity|]; simpl; split; [|split; [apply NoDup_elements|]]).
    + reflexivity.
    + intros _ _. apply elem_of_union_l, elem_of_singleton. reflexivity.
    + apply set_eq. intros x. rewrite !elem_of_union. tauto.
    + intros _ _. apply elem_of_union_l, elem_of_singleton. reflexivity.
Qed.


End Properties.

(** ** The claims on concrete runs *)

(** C1. The prefix of a hierarchical keyword is not removed: the argument
    [strip_prefixes] of [get_xmp_keywords] changes nothing, and in
    Scenario A (marker "sync", stripping on, merge mode, tags Blue) the
    TagSet afterwards is Blue, Animals|Cat, Red and not Blue, Cat, Red. *)
Theorem strip_prefixes_ignored :
  (∀ p b w, get_xmp_keywords p b w = get_xmp_keywords p false w) ∧
  let r := process_file lower_ascii source_config "/photos/cat.jpg" false true true scenario_A in
  r.1.1 = true ∧
  TagSet r.2 "/photos/cat.jpg" = {["Blue"; "Animals|Cat"; "Red"]} ∧
  TagSet r.2 "/photos/cat.jpg" ≠ {["Blue"; "Cat"; "Red"]}.
Proof.
  split; [reflexivity|].
  split; [vm_compute; reflexivity|]. split; [vm_compute; reflexivity|].
  intros H.
  apply (f_equal (λ s : gset string, bool_decide ("Cat" ∈ s))) in H.
  vm_compute in H. discriminate.
Qed.


(** C3 fails as stated: with no marker configured, a file without raw
    keywords has an empty EffectiveKeywordSet, and replace mode leaves its
    tags in place, running no tag command. *)
Lemma replace_keeps_tags_without_keywords :
  let p := "/photos/plain.jpg" in
  let r := process_file lower_ascii config_without_marker p false false true scenario_no_keywords in
  RawKeywordSet scenario_no_keywords p = [] ∧
  EffectiveKeywordSet lower_ascii config_without_marker (RawKeywordSet scenario_no_keywords p)
    = Some [] ∧
  tag_commands (log r.2) = [] ∧
  tag_attribute r.2 p = XTags [format_tag "Blue"] ∧
  TagSet r.2 p = {["Blue"]}.
Proof. vm_compute. repeat split; reflexivity. Qed.

(** C4 fails as stated: in replace mode a keyword of two lines is stored,
    with success, and the TagSet afterwards holds its first line, not the
    keyword. *)
Lemma replace_keeps_first_line :
  let p := "/photos/rose.jpg" in
  let r := process_file lower_ascii source_config p false false true scenario_two_lines in
  r.1 = (true, [two_lines]) ∧
  TagSet r.2 p = {["Red"]} ∧
  TagSet r.2 p ≠ list_to_set [two_lines].
Proof.
  split; [vm_compute; reflexivity|]. split; [vm_compute; reflexivity|].
  intros H.
  apply (f_equal (λ s : gset string, bool_decide ("Red" ∈ s))) in H.
  vm_compute in H. discriminate.
Qed.

(** C5 fails as stated, however [xattr -p] prints. When it prints the
    stored bytes: in merge mode a keyword of two lines is stored, with
    success, and the TagSet afterwards is the old one with the first line
    of the keyword, not with the keyword. When it prints them in another
    form: in merge mode on the file of Scenario A, tagged Blue, the tags
    are read as none, the keywords alone are stored, with success, and
    Blue is gone. *)
Lemma merge_keeps_first_line :
  (let p := "/photos/rose.jpg" in
   let r := process_file lower_ascii source_config p false true true scenario_two_lines_tagged in
   xattr_p_raw scenario_two_lines_tagged = true ∧
   r.1 = (true, [two_lines]) ∧
   TagSet scenario_two_lines_tagged p = {["Blue"]} ∧
   TagSet r.2 p = {["Blue"; "Red"]} ∧
   TagSet r.2 p ≠ TagSet scenario_two_lines_tagged p ∪ list_to_set [two_lines]) ∧
  (let p := "/photos/cat.jpg" in
   let r := process_file lower_ascii source_config p false true true (displayed scenario_A) in
   xattr_p_raw (displayed scenario_A) = false ∧
   r.1.1 = true ∧
   EffectiveKeywordSet lower_ascii source_config (RawKeywordSet (displayed scenario_A) p)
     = Some r.1.2 ∧
   TagSet (displayed scenario_A) p = {["Blue"]} ∧
   (get_finder_tags p (displayed scenario_A)).1 = [] ∧
   TagSet r.2 p = list_to_set r.1.2 ∧
   "Blue" ∉ TagSet r.2 p).
Proof.
  split.
  - split; [reflexivity|].
    split; [vm_compute; reflexivity|]. split; [vm_compute; reflexivity|].
    split; [vm_compute; reflexivity|].
    intros H.
    apply (f_equal (λ s : gset string, bool_decide ("Red" ∈ s))) in H.
    vm_compute in H. discriminate.
  - split; [reflexivity|].
    split; [vm_compute; reflexivity|]. split; [vm_compute; reflexivity|].
    split; [vm_compute; reflexivity|]. split; [vm_compute; reflexivity|].
    split; [vm_compute; reflexivity|].
    intros H. apply (bool_decide_pack _) in H. vm_compute in H. exact H.
Qed.


(** C8 fails as stated: in a folder where exiftool fails on one of two
    files, the pass processes both and its error counter stays at zero. *)
Lemma metadata_failure_not_counted :
  let r := process_folder lower_ascii source_config "/photos" false true true scenario_folder in
  metadata_output scenario_folder "/photos/broken.jpg" = ExifError ∧
  r.1 = {| processed := 2; tagged := 1; errors := 0 |}.
Proof. vm_compute. split; reflexivity. Qed.

(** ** The theorems at concrete inputs *)

(** Scenario D: the only keyword is the marker. Merge mode changes no
    file; replace mode leaves the attribute absent. *)
Lemma empty_keywords_witness :
  EffectiveKeywordSet lower_ascii source_config (RawKeywordSet scenario_D "/photos/only.jpg")
    = Some [] ∧
  files (process_file lower_ascii source_config "/photos/only.jpg" false true true scenario_D).2
    = files scenario_D ∧
  tag_attribute
    (process_file lower_ascii source_config "/photos/only.jpg" false false true scenario_D).2
    "/photos/only.jpg" = XAbsent.
Proof.
  assert (Heff : EffectiveKeywordSet lower_ascii source_config
                   (RawKeywordSet scenario_D "/photos/only.jpg") = Some [])
    by (vm_compute; reflexivity).
  split; [exact Heff|].
  destruct (empty_keywords lower_ascii source_config "/photos/only.jpg" false true scenario_D Heff)
    as (Hmerge & Hreplace & _).
  split; [apply Hmerge|].
  apply Hreplace; [vm_compute; discriminate|reflexivity].
Defined.

(** Scenario B: in replace mode the tags become the one keyword, prefix
    included, and the old tag is gone. *)
Lemma replace_exact_witness :
  attribute_writable scenario_B "/photos/ab.jpg" = true ∧
  TagSet (reconcile "/photos/ab.jpg" false false ["A|B"] scenario_B).2 "/photos/ab.jpg"
    = {["A|B"]} ∧
  TagSet (process_file lower_ascii config_B "/photos/ab.jpg" false false false scenario_B).2
    "/photos/ab.jpg" = {["A|B"]}.
Proof.
  assert (Hok : attribute_writable scenario_B "/photos/ab.jpg" = true) by reflexivity.
  split; [exact Hok|].
  destruct (replace_exact lower_ascii config_B "/photos/ab.jpg" ["A|B"] scenario_B Hok)
    as (_ & Hlines & _ & Hfile).
  split.
  - rewrite Hlines; [vm_compute; reflexivity|]. repeat constructor.
  - rewrite (Hfile false); [vm_compute; reflexivity|vm_compute; discriminate|vm_compute; reflexivity|].
    repeat constructor.
Defined.

(** Merging two keywords into the tags of Scenario A. *)
Lemma merge_union_witness :
  xattr_p_raw scenario_A = true ∧
  attribute_writable scenario_A "/photos/cat.jpg" = true ∧
  TagSet (reconcile "/photos/cat.jpg" false true ["Animals|Cat"; "Red"] scenario_A).2
    "/photos/cat.jpg"
  = TagSet scenario_A "/photos/cat.jpg" ∪ list_to_set ["Animals|Cat"; "Red"] ∧
  TagSet (process_file lower_ascii source_config "/photos/cat.jpg" false true true scenario_A).2
    "/photos/cat.jpg"
  = TagSet scenario_A "/photos/cat.jpg" ∪ list_to_set ["Animals|Cat"; "Red"].
Proof.
  assert (Hok : attribute_writable scenario_A "/photos/cat.jpg" = true) by reflexivity.
  assert (Hlines : Forall single_line ["Animals|Cat"; "Red"]) by (repeat constructor).
  destruct (merge_union lower_ascii source_config "/photos/cat.jpg" false
              ["Animals|Cat"; "Red"] scenario_A eq_refl) as (_ & Hstep & Hfile).
  split; [reflexivity|]. split; [exact Hok|]. split.
  - exact (proj2 (Hstep eq_refl Hok) Hlines).
  - refine (proj2 (Hfile true) eq_refl Hok _ Hlines). vm_compute. reflexivity.
Defined.

(** Scenario C: the marker is absent and the file is skipped, in replace
    mode; so is, in merge mode, a file that has the marker capitalised. *)
Lemma marker_gate_skips_witness :
  marker source_config = Some "sync" ∧
  process_file lower_ascii source_config "/photos/red.jpg" false false true scenario_C
  = ((true, []), logged (Exiftool "/photos/red.jpg") scenario_C) ∧
  process_file lower_ascii source_config "/photos/red.jpg" false true true scenario_capital
  = ((true, []), logged (Exiftool "/photos/red.jpg") scenario_capital).
Proof.
  split; [reflexivity|]. split.
  - apply (marker_gate_skips lower_ascii source_config _ _ _ _ _ "sync"); [reflexivity|].
    apply (bool_decide_unpack _). vm_compute. exact I.
  - apply (marker_gate_skips lower_ascii source_config _ _ _ _ _ "sync"); [reflexivity|].
    apply (bool_decide_unpack _). vm_compute. exact I.
Defined.


(** The file on which exiftool fails is skipped with success. *)
Lemma metadata_failure_skipped_witness :
  metadata_output scenario_folder "/photos/broken.jpg" = ExifError ∧
  process_file lower_ascii source_config "/photos/broken.jpg" false true true scenario_folder
  = ((true, []), logged (Exiftool "/photos/broken.jpg") scenario_folder).
Proof.
  split; [reflexivity|].
  apply (metadata_failure_skipped lower_ascii source_config "/photos/broken.jpg" []
           {| processed := 0; tagged := 0; errors := 0 |} false true true scenario_folder).
  - left. reflexivity.
  - apply (bool_decide_unpack _). vm_compute. exact I.
  - vm_compute. discriminate.
Defined.


(** A second notification with the same positive modification time leaves
    the watcher as it was. *)
Lemma duplicate_discarded_witness :
  (0 < 1700000000)%Q ∧
  watch_turn lower_ascii (watcher_after_first 1700000000%Q)
    (Line "/photos/cat.jpg" true (Some 1700000000%Q) 101%Q)
  = Continue (watcher_after_first 1700000000%Q) [].
Proof.
  split; [reflexivity|].
  apply (duplicate_discarded lower_ascii watcher_init "/photos/cat.jpg" 1700000000%Q
           1700000000%Q 100%Q 101%Q (watcher_after_first 1700000000%Q) []);
    [vm_compute; reflexivity|reflexivity|reflexivity].
Defined.

(** Scenario D on a file whose attributes may not be changed: the removal
    fails and success is reported all the same. *)
Lemma clear_reports_success_witness :
  (run_xattr_d "/photos/only.jpg" scenario_D_locked).1 = false ∧
  set_finder_tags "/photos/only.jpg" [] scenario_D_locked
  = (true, logged (XattrD "/photos/only.jpg") scenario_D_locked) ∧
  (process_file lower_ascii source_config "/photos/only.jpg" false false true
     scenario_D_locked).1 = (true, []).
Proof.
  destruct (clear_reports_success lower_ascii source_config "/photos/only.jpg" scenario_D_locked)
    as (_ & Hfail & Hfile).
  split; [reflexivity|]. split; [apply Hfail; reflexivity|].
  apply (Hfile false true {| processed := 0; tagged := 0; errors := 0 |});
    [vm_compute; discriminate|vm_compute; reflexivity].
Defined.

(** ** Further properties of the program *)

(** *** Composing computations *)

Lemma keeps_ret {A} (R : relation world) `{!Reflexive R} (a : A) : keeps R (ret a).
Proof. intros w. reflexivity. Qed.

Lemma keeps_bind {A B} (R : relation world) `{!Transitive R} (c : M A) (k : A → M B) :
  keeps R c → (∀ a, keeps R (k a)) → keeps R (bind c k).
Proof.
  intros Hc Hk w. unfold bind.
  specialize (Hc w). destruct (c w) as [a w1]. simpl in Hc.
  transitivity w1; [exact Hc|apply Hk].
Qed.

Lemma returns_ret {A} (Q : A → Prop) (a : A) : Q a → returns Q (ret a).
Proof. intros H w. exact H. Qed.

Lemma returns_bind {A B} (Q : B → Prop) (c : M A) (k : A → M B) :
  (∀ a, returns Q (k a)) → returns Q (bind c k).
Proof.
  intros Hk w. unfold bind. destruct (c w) as [a w1]. apply Hk.
Qed.

Lemma keeps_logged (R : relation world) (c : command) {A} (a : A) :
  (∀ w, R w (logged c w)) → keeps R (λ w, (a, logged c w)).
Proof. intros H w. apply H. Qed.

Global Instance same_but_tags_preorder : PreOrder same_but_tags.
Proof.
  split.
  - intros w q. reflexivity.
  - intros w1 w2 w3 H12 H23 q. rewrite H23. apply H12.
Qed.

Global Instance tags_grow_preorder : PreOrder tags_grow.
Proof.
  split.
  - intros w. split; [reflexivity|]. intros _ q. reflexivity.
  - intros w1 w2 w3 [T12 H12] [T23 H23]. split; [congruence|].
    intros Hraw q. transitivity (TagSet w2 q); [apply H12, Hraw|].
    apply H23. congruence.
Qed.

Global Instance temp_files_grow_preorder : PreOrder temp_files_grow.
Proof.
  split.
  - intros w. exists []. reflexivity.
  - intros w1 w2 w3 [n12 H12] [n23 H23]. exists (n23 ++ n12).
    rewrite H23, H12, app_assoc. reflexivity.
Qed.

Global Instance same_temp_files_preorder : PreOrder same_temp_files.
Proof.
  split.
  - intros w. reflexivity.
  - intros w1 w2 w3 H12 H23. unfold same_temp_files in *. congruence.
Qed.

Global Instance same_files_preorder : PreOrder same_files.
Proof.
  split.
  - intros w. reflexivity.
  - intros w1 w2 w3 H12 H23. unfold same_files in *. congruence.
Qed.

Global Instance same_files_but_preorder p : PreOrder (same_files_but p).
Proof.
  split.
  - intros w q _. reflexivity.
  - intros w1 w2 w3 H12 H23 q Hq. rewrite H23, H12; done.
Qed.

Global Instance log_grows_by_preorder P : PreOrder (log_grows_by P).
Proof.
  split.
  - intros w. exists []. split; [reflexivity|constructor].
  - intros w1 w2 w3 (c12 & H12 & P12) (c23 & H23 & P23).
    exists (c23 ++ c12). split.
    + rewrite H23, H12, app_assoc. reflexivity.
    + apply Forall_app. done.
Qed.

Lemma log_grows_by_logged (P : command → Prop) c w :
  P c → log_grows_by P w (logged c w).
Proof. intros Hc. exists [c]. split; [reflexivity|]. constructor; [exact Hc|constructor]. Qed.

Lemma log_grows_by_weaken (P Q : command → Prop) w w' :
  (∀ c, P c → Q c) → log_grows_by P w w' → log_grows_by Q w w'.
Proof.
  intros HPQ (cmds & Hlog & HP). exists cmds. split; [exact Hlog|].
  eapply Forall_impl; eauto.
Qed.

(** The TagSet of a file depends on that file alone. *)
Lemma TagSet_files w w' q :
  files w' !! q = files w !! q → TagSet w' q = TagSet w q.
Proof.
  intros H. rewrite !TagSet_attribute. unfold tag_attribute. rewrite H. reflexivity.
Qed.


(** *** The commands *)

Lemma set_user_tags_same_but_tags p v w : same_but_tags w (set_user_tags p v w).
Proof.
  intros q. unfold set_user_tags. simpl.
  destruct (decide (p = q)) as [->|Hne].
  - rewrite lookup_alter_eq. destruct (files w !! q); reflexivity.
  - rewrite lookup_alter_ne by done. reflexivity.
Qed.

Lemma set_user_tags_but p v w : same_files_but p w (set_user_tags p v w).
Proof.
  intros q Hq. unfold set_user_tags. simpl. rewrite lookup_alter_ne; done.
Qed.

Lemma run_exiftool_eq p w : (run_exiftool p w).2 = logged (Exiftool p) w.
Proof. reflexivity. Qed.

Lemma run_xattr_wx_cases p entries w :
  run_xattr_wx p entries w = (false, logged (XattrWX p entries) w) ∧ attribute_writable w p = false ∨
  run_xattr_wx p entries w = (true, set_user_tags p (XTags entries) (logged (XattrWX p entries) w))
  ∧ attribute_writable w p = true.
Proof.
  unfold run_xattr_wx, attribute_writable. destruct (files w !! p) as [f|]; [|left; done].
  simpl. destruct (xattr_ok f); [right|left]; done.
Qed.

(** The world after [set_finder_tags], but for the temporary file a
    failed write leaves: the command is logged and, on success, the
    attribute is set. *)
Lemma set_finder_tags_cases p tags w :
  ∃ w1,
    (w1 = logged (if bool_decide (tags = []) then XattrD p else XattrWX p (format_tag <$> tags)) w ∨
     w1 = set_user_tags p (if bool_decide (tags = []) then XAbsent else XTags (format_tag <$> tags))
            (logged (if bool_decide (tags = []) then XattrD p else XattrWX p (format_tag <$> tags)) w)) ∧
    ((set_finder_tags p tags w).2 = w1 ∨
     (set_finder_tags p tags w).2 = set_temp_files ((format_tag <$> tags) :: temp_files w) w1).
Proof.
  rewrite set_finder_tags_eq. case_bool_decide.
  - destruct (run_xattr_d_cases p w) as [Hd|Hd]; eexists; (split; [|left; exact Hd]); auto.
  - destruct (attribute_writable w p); eexists; (split; [|auto]); auto.
Qed.

Lemma set_finder_tags_same_but_tags p tags : keeps same_but_tags (set_finder_tags p tags).
Proof.
  intros w. destruct (set_finder_tags_cases p tags w) as (w1 & [-> | ->] & [-> | ->]).
  - intros q. reflexivity.
  - intros q. reflexivity.
  - exact (set_user_tags_same_but_tags p _ (logged _ w)).
  - exact (set_user_tags_same_but_tags p _ (logged _ w)).
Qed.

Lemma set_finder_tags_but p tags : keeps (same_files_but p) (set_finder_tags p tags).
Proof.
  intros w. destruct (set_finder_tags_cases p tags w) as (w1 & [-> | ->] & [-> | ->]).
  - intros q _. reflexivity.
  - intros q _. reflexivity.
  - exact (set_user_tags_but p _ (logged _ w)).
  - exact (set_user_tags_but p _ (logged _ w)).
Qed.

(** The temporary files after [set_finder_tags]: as before when it
    answers [True], one more when it answers [False]. *)
Lemma set_finder_tags_temp p tags w :
  temp_files (set_finder_tags p tags w).2 =
  if (set_finder_tags p tags w).1 then temp_files w
  else (format_tag <$> tags) :: temp_files w.
Proof.
  rewrite set_finder_tags_eq. case_bool_decide.
  - destruct (run_xattr_d_cases p w) as [-> | ->]; reflexivity.
  - destruct (attribute_writable w p); reflexivity.
Qed.

Lemma set_finder_tags_temp_grow p tags : keeps temp_files_grow (set_finder_tags p tags).
Proof.
  intros w. unfold temp_files_grow. rewrite set_finder_tags_temp.
  destruct (set_finder_tags p tags w).1; [exists []|eexists [_]]; reflexivity.
Qed.

Lemma get_xmp_keywords_keeps (R : relation world) p b :
  (∀ w, R w (logged (Exiftool p) w)) → keeps R (get_xmp_keywords p b).
Proof. intros H w. rewrite get_xmp_keywords_eq. apply H. Qed.

Lemma get_finder_tags_keeps (R : relation world) p :
  (∀ w, R w (logged (XattrP p) w)) → keeps R (get_finder_tags p).
Proof. intros H w. rewrite get_finder_tags_eq. apply H. Qed.

Lemma set_finder_tags_stored p tags w :
  tags ≠ [] →
  attribute_writable w p = true →
  tag_attribute (set_finder_tags p tags w).2 p = XTags (format_tag <$> tags).
Proof.
  intros Hne Hwr. rewrite set_finder_tags_eq.
  rewrite bool_decide_eq_false_2 by exact Hne. rewrite Hwr. simpl.
  rewrite tag_attribute_set.
  rewrite bool_decide_eq_true_2 by (apply writable_present, Hwr). reflexivity.
Qed.

Lemma length_format_tag a : String.length (format_tag a) = S (S (String.length a)).
Proof.
  induction a as [|c a IH]; [reflexivity|].
  change (format_tag (String c a)) with (String c (format_tag a)).
  cbn [String.length]. rewrite IH. reflexivity.
Qed.

Global Instance format_tag_inj : Inj (=) (=) format_tag.
Proof.
  intros a b. revert b. induction a as [|c a IH]; intros [|d b] H.
  - reflexivity.
  - apply (f_equal String.length) in H. rewrite !length_format_tag in H. discriminate.
  - apply (f_equal String.length) in H. rewrite !length_format_tag in H. discriminate.
  - change (String c (format_tag a) = String d (format_tag b)) in H.
    injection H as -> H. f_equal. apply IH, H.
Qed.

Lemma set_finder_tags_fails p tags w :
  (set_finder_tags p tags w).1 = false →
  tags ≠ [] ∧ attribute_writable w p = false ∧ files (set_finder_tags p tags w).2 = files w ∧
  temp_files (set_finder_tags p tags w).2 = (format_tag <$> tags) :: temp_files w.
Proof.
  rewrite set_finder_tags_eq. case_bool_decide as Ht; [discriminate|].
  destruct (attribute_writable w p); [discriminate|]. done.
Qed.

Global Instance same_files_except_preorder P : PreOrder (same_files_except P).
Proof.
  split.
  - intros w q _. reflexivity.
  - intros w1 w2 w3 H12 H23 q Hq. rewrite H23, H12; done.
Qed.

Lemma same_files_but_except (P : string → Prop) p w w' :
  P p → same_files_but p w w' → same_files_except P w w'.
Proof. intros Hp H q Hq. apply H. intros ->. done. Qed.

(** *** Strings and paths *)

Lemma string_app_nil_l (s : string) : "" +:+ s = s.
Proof. reflexivity. Qed.

Lemma string_app_cons (c : ascii) (a b : string) : String c a +:+ b = String c (a +:+ b).
Proof. reflexivity. Qed.

Lemma string_app_assoc (a b c : string) : (a +:+ b) +:+ c = a +:+ (b +:+ c).
Proof.
  induction a as [|x a IH]; [reflexivity|].
  rewrite !string_app_cons, IH. reflexivity.
Qed.

Lemma string_app_nil_r (a : string) : a +:+ "" = a.
Proof. induction a as [|x a IH]; [reflexivity|]. rewrite string_app_cons, IH. reflexivity. Qed.

Lemma string_length_app (a b : string) :
  String.length (a +:+ b) = String.length a + String.length b.
Proof.
  induction a as [|x a IH]; [reflexivity|].
  rewrite string_app_cons. cbn [String.length]. rewrite IH. reflexivity.
Qed.

Lemma substring_app (a b : string) n :
  substring 0 (String.length a + n) (a +:+ b) = a +:+ substring 0 n b.
Proof.
  induction a as [|x a IH]; [reflexivity|].
  rewrite string_app_cons. cbn [String.length Nat.add substring]. rewrite IH. reflexivity.
Qed.

Lemma substring_all (a : string) : substring 0 (String.length a) a = a.
Proof. induction a as [|x a IH]; [reflexivity|]. cbn [String.length substring]. rewrite IH. reflexivity. Qed.

Lemma after_last_split c s r :
  after_last c s = Some r → ∃ pre, s = pre +:+ String c r.
Proof.
  revert r. induction s as [|x s IH]; intros r; simpl; [discriminate|].
  destruct (after_last c s) as [r'|].
  - intros [= <-]. destruct (IH r' eq_refl) as [pre ->]. exists (String x pre). reflexivity.
  - destruct (Ascii.eqb x c) eqn:Hx; [|discriminate].
    intros [= <-]. apply Ascii.eqb_eq in Hx as ->. exists "". reflexivity.
Qed.

Lemma after_last_app c a b :
  after_last c (a +:+ String c b) = Some (default b (after_last c b)).
Proof.
  induction a as [|x a IH].
  - rewrite string_app_nil_l. simpl. destruct (after_last c b); [reflexivity|].
    rewrite Ascii.eqb_refl. reflexivity.
  - rewrite string_app_cons. simpl. rewrite IH. reflexivity.
Qed.

Lemma prefix_split a p : String.prefix a p = true → ∃ b, p = a +:+ b.
Proof.
  revert p. induction a as [|x a IH]; intros p.
  - intros _. exists p. reflexivity.
  - destruct p as [|y p]; simpl; [discriminate|].
    destruct (ascii_dec x y) as [->|]; [|discriminate].
    intros H. destruct (IH p H) as [b ->]. exists b. reflexivity.
Qed.

Lemma prefix_app a b : String.prefix a (a +:+ b) = true.
Proof.
  induction a as [|x a IH]; [destruct b; reflexivity|].
  rewrite string_app_cons. simpl. destruct (ascii_dec x x); [exact IH|done].
Qed.

(** The name of a path is its tail. *)
Lemma path_name_split p : ∃ dir, p = dir +:+ path_name p.
Proof.
  unfold path_name. destruct (after_last "/" p) as [r|] eqn:Hr; simpl.
  - destruct (after_last_split _ _ _ Hr) as [pre ->].
    exists (pre +:+ "/"). rewrite string_app_assoc. reflexivity.
  - exists "". reflexivity.
Qed.

(** The suffix of a path is the tail of its name, after a non-empty stem. *)
Lemma path_suffix_split p :
  ∃ stem, path_name p = stem +:+ path_suffix p ∧ (path_suffix p ≠ "" → stem ≠ "").
Proof.
  unfold path_suffix. cbv zeta.
  destruct (after_last "." (path_name p)) as [ext|] eqn:Hext.
  2:{ exists (path_name p). rewrite string_app_nil_r. done. }
  destruct (after_last_split _ _ _ Hext) as [pre Hname].
  destruct (bool_decide (ext = "") || bool_decide (String.length (path_name p) = S (String.length ext)))
    eqn:Hedge.
  - exists (path_name p). rewrite string_app_nil_r. done.
  - exists pre. split; [exact Hname|]. intros _ ->.
    apply orb_false_iff in Hedge as [_ Hlen]. apply bool_decide_eq_false in Hlen.
    apply Hlen. rewrite Hname. reflexivity.
Qed.

Lemma path_split p :
  ∃ base, p = base +:+ path_suffix p ∧ path_with_suffix_empty p = base ∧
          (path_suffix p ≠ "" → ∃ dir stem, base = dir +:+ stem ∧ stem ≠ ""
                                            ∧ path_name p = stem +:+ path_suffix p).
Proof.
  destruct (path_name_split p) as [dir Hdir].
  destruct (path_suffix_split p) as (stem & Hstem & Hne).
  exists (dir +:+ stem).
  assert (Hp : p = (dir +:+ stem) +:+ path_suffix p).
  { rewrite string_app_assoc, <- Hstem. exact Hdir. }
  split; [exact Hp|]. split.
  - unfold path_with_suffix_empty. rewrite Hp at 1 3.
    rewrite string_length_app, Nat.add_sub.
    replace (String.length (dir +:+ stem)) with (String.length (dir +:+ stem) + 0) by lia.
    rewrite substring_app. simpl. destruct (path_suffix p); simpl; apply string_app_nil_r.
  - intros Hs. exists dir, stem. auto.
Qed.

Lemma with_suffix_empty_of p base :
  p = base +:+ path_suffix p → path_with_suffix_empty p = base.
Proof.
  intros Hp. unfold path_with_suffix_empty. rewrite Hp at 1 3.
  rewrite string_length_app, Nat.add_sub.
  replace (String.length base) with (String.length base + 0) by lia.
  rewrite substring_app. simpl. destruct (path_suffix p); simpl; apply string_app_nil_r.
Qed.

(** The main file of a sidecar lies in the folder the sidecar lies in. *)
Lemma main_file_under folder p :
  String.prefix (folder +:+ "/") p = true →
  String.prefix (folder +:+ "/") (path_with_suffix_empty p) = true.
Proof.
  intros Hunder. destruct (prefix_split _ _ Hunder) as [rest Hrest].
  assert (Hname : path_name p = path_name rest).
  { unfold path_name at 1. rewrite Hrest, string_app_assoc.
    change ("/" +:+ rest) with (String "/" rest). rewrite after_last_app. reflexivity. }
  destruct (path_name_split rest) as [dir Hdir].
  destruct (path_suffix_split p) as (stem & Hstem & _).
  rewrite (with_suffix_empty_of p ((folder +:+ "/") +:+ (dir +:+ stem))).
  - apply prefix_app.
  - rewrite !string_app_assoc. rewrite <- Hstem, Hname.
    rewrite <- Hdir. rewrite <- string_app_assoc. exact Hrest.
Qed.

Section Further.

Variable lower : string → string.
Variable cfg : config.

(** *** Reading keywords *)

(** X1. The keywords read from a file with a record are, without
    duplicates, exactly the strings of the Subject and Keywords fields of
    its first record: nothing of HierarchicalSubject or of later records. *)
Theorem xmp_keywords_union p b w f md rest :
  files w !! p = Some f →
  exiftool f = ExifData (md :: rest) →
  NoDup (get_xmp_keywords p b w).1 ∧
  ∀ k, k ∈ (get_xmp_keywords p b w).1 ↔
       k ∈ field_keywords (Subject md) ∨ k ∈ field_keywords (Keywords md).
Proof.
  intros Hf Hex. unfold get_xmp_keywords, bind, run_exiftool, ret.
  rewrite Hf. simpl. rewrite Hex. simpl. split; [apply NoDup_elements|].
  intros k. rewrite elem_of_elements, elem_of_list_to_set, elem_of_app. reflexivity.
Qed.

(** X2. When there is nothing to read (the file is missing, exiftool fails,
    its output does not parse, it prints no record, or the record has none
    of the two fields as a list or a string), [get_xmp_keywords] answers the
    empty list; and in every case it runs exiftool once and changes no
    file. *)
Theorem xmp_keywords_nothing p b w :
  (get_xmp_keywords p b w).2 = logged (Exiftool p) w ∧
  (files w !! p = None → (get_xmp_keywords p b w).1 = []) ∧
  (metadata_output w p = ExifError ∨ metadata_output w p = ExifUnparseable
   ∨ metadata_output w p = ExifData [] →
   (get_xmp_keywords p b w).1 = []) ∧
  (∀ md rest, metadata_output w p = ExifData (md :: rest) →
     field_keywords (Subject md) = [] → field_keywords (Keywords md) = [] →
     (get_xmp_keywords p b w).1 = []).
Proof.
  split; [rewrite get_xmp_keywords_eq; reflexivity|].
  unfold get_xmp_keywords, bind, run_exiftool, ret, metadata_output.
  split; [intros ->; reflexivity|]. split.
  - intros [-> | [-> | ->]]; reflexivity.
  - intros md rest -> Hs Hk. simpl. rewrite Hs, Hk. reflexivity.
Qed.

(** *** The tag attribute *)

Lemma get_finder_tags_read p w :
  (get_finder_tags p w).1 =
  match printed (xattr_p_raw w) (tag_attribute w p) with
  | XTags entries => first_line <$> entries
  | _ => []
  end.
Proof.
  unfold get_finder_tags, bind, run_xattr_p, ret, tag_attribute.
  destruct (printed _ _); reflexivity.
Qed.

(** X3. Writing tags and reading them back. After [set_finder_tags] has
    stored a non-empty list with success: when [xattr -p] prints the stored
    bytes, [get_finder_tags] answers the first lines of those tags, in the
    same order, which are the tags themselves when none contains a line
    feed; when [xattr -p] prints the value in another form,
    [get_finder_tags] answers the empty list. *)
Theorem tags_round_trip p tags w :
  tags ≠ [] →
  (set_finder_tags p tags w).1 = true →
  (xattr_p_raw w = true →
   (get_finder_tags p (set_finder_tags p tags w).2).1 = first_line <$> tags ∧
   (Forall single_line tags → (get_finder_tags p (set_finder_tags p tags w).2).1 = tags)) ∧
  (xattr_p_raw w = false → (get_finder_tags p (set_finder_tags p tags w).2).1 = []).
Proof.
  intros Hne Hok.
  rewrite set_finder_tags_success, bool_decide_eq_false_2 in Hok by exact Hne.
  rewrite get_finder_tags_read, set_finder_tags_tool, set_finder_tags_stored by done.
  split.
  - intros ->. simpl. rewrite first_line_formatted. split; [reflexivity|].
    intros Hlines. apply single_line_fmap, Hlines.
  - intros ->. reflexivity.
Qed.

(** X4. [set_finder_tags] answers [False] exactly when it is given tags to
    store and the attribute of the file may not be changed (a missing file
    included). No file changes then, and the temporary file that holds the
    entries is left behind; when the answer is [True] no temporary file is
    left. *)
Theorem set_finder_tags_failure p tags w :
  ((set_finder_tags p tags w).1 = false ↔ tags ≠ [] ∧ attribute_writable w p = false) ∧
  ((set_finder_tags p tags w).1 = false →
   files (set_finder_tags p tags w).2 = files w ∧
   temp_files (set_finder_tags p tags w).2 = (format_tag <$> tags) :: temp_files w) ∧
  ((set_finder_tags p tags w).1 = true →
   temp_files (set_finder_tags p tags w).2 = temp_files w).
Proof.
  split; [|split].
  - split; [intros Hfail; apply set_finder_tags_fails in Hfail as (? & ? & _); done|].
    intros [Hne Hwr]. rewrite set_finder_tags_success.
    rewrite bool_decide_eq_false_2 by exact Hne. exact Hwr.
  - intros Hfail. apply set_finder_tags_fails in Hfail as (_ & _ & ? & ?). done.
  - intros Hok. rewrite set_finder_tags_temp, Hok. reflexivity.
Qed.

(** X5. [get_finder_tags] answers tags of the file and nothing else, and
    none of the names it answers contains a line feed. It answers the
    empty list when the attribute is absent (a missing file included),
    and when [xattr -p] prints the value in a form that is no property
    list. *)
Theorem finder_tags_names p w :
  Forall (λ tag, has_line_feed tag = false) (get_finder_tags p w).1 ∧
  list_to_set (get_finder_tags p w).1 ⊆ TagSet w p ∧
  (tag_attribute w p = XAbsent → (get_finder_tags p w).1 = []) ∧
  (files w !! p = None → (get_finder_tags p w).1 = []) ∧
  (xattr_p_raw w = false → (get_finder_tags p w).1 = []).
Proof.
  split; [|split; [|split; [|split]]].
  - eapply Forall_impl; [apply current_tags_single_line|].
    intros tag. apply single_line_iff.
  - apply ExistingTags_subseteq.
  - rewrite get_finder_tags_read. intros ->. reflexivity.
  - rewrite get_finder_tags_read. unfold tag_attribute. intros ->. reflexivity.
  - rewrite get_finder_tags_read. intros ->. destruct (tag_attribute w p); reflexivity.
Qed.

(** X6. When [xattr -p] prints the stored bytes, a merge that stores tags
    rewrites the whole attribute: every entry stored is a tag name
    followed by colour 0, and each entry the file had is stored again
    under its name with colour 0, whatever colour it had. *)
Theorem merge_resets_colours p keywords w old e0 :
  xattr_p_raw w = true →
  tag_attribute w p = XTags old →
  e0 ∈ old →
  attribute_writable w p = true →
  ∃ entries,
    tag_attribute (reconcile p false true keywords w).2 p = XTags entries ∧
    NoDup entries ∧
    format_tag (first_line e0) ∈ entries ∧
    ∀ e, e ∈ entries → ∃ tag, e = format_tag tag.
Proof.
  intros Htool Hold He0 Hwr.
  rewrite reconcile_eq. cbv zeta. cbn -[set_finder_tags].
  assert (Hcur : (get_finder_tags p w).1 = first_line <$> old).
  { rewrite get_finder_tags_read, Htool, Hold. reflexivity. }
  set (all_tags := elements (list_to_set ((get_finder_tags p w).1 ++ keywords) : gset string)).
  assert (Hin : first_line e0 ∈ all_tags).
  { subst all_tags. rewrite elem_of_elements, elem_of_list_to_set, elem_of_app, Hcur.
    left. apply list_elem_of_fmap. eauto. }
  assert (Hne : all_tags ≠ []) by (intros Hnil; rewrite Hnil in Hin; inversion Hin).
  exists (format_tag <$> all_tags).
  split; [|split; [|split]].
  - apply set_finder_tags_stored; [exact Hne|exact Hwr].
  - apply (NoDup_fmap_2 format_tag), NoDup_elements.
  - apply list_elem_of_fmap. eauto.
  - intros e He. apply list_elem_of_fmap in He as (tag & -> & _). eauto.
Qed.

(** *** One file *)

Lemma reconcile_keeps (R : relation world) `{!PreOrder R} p dry merge keywords :
  (∀ w, R w (logged (XattrP p) w)) →
  (dry = false → ∀ tags, keeps R (set_finder_tags p tags)) →
  keeps R (reconcile p dry merge keywords).
Proof.
  intros Hlog Hset. unfold reconcile.
  apply keeps_bind; [apply _| |].
  - destruct merge; [|apply keeps_ret, _].
    apply keeps_bind; [apply _|apply get_finder_tags_keeps, Hlog|].
    intros existing. apply keeps_ret, _.
  - intros all_tags. destruct dry; [apply keeps_ret, _|].
    apply keeps_bind; [apply _|apply Hset; reflexivity|].
    intros success. apply keeps_ret, _.
Qed.

Lemma process_file_keeps (R : relation world) `{!PreOrder R} p dry merge strip :
  (∀ w, R w (logged (Exiftool p) w)) →
  (∀ keywords, keeps R (reconcile p dry merge keywords)) →
  keeps R (process_file lower cfg p dry merge strip).
Proof.
  intros Hlog Hrec. unfold process_file.
  apply keeps_bind; [apply _|apply get_xmp_keywords_keeps, Hlog|].
  intros raw. case_bool_decide; [apply keeps_ret, _|].
  destruct (marker_missing cfg raw); [apply keeps_ret, _|].
  apply keeps_bind; [apply _| |].
  - destruct (negb _); [apply get_xmp_keywords_keeps, Hlog|apply keeps_ret, _].
  - intros keywords. destruct (_ && _ && _); [apply keeps_ret, _|apply Hrec].
Qed.

Lemma process_file_keywords p dry merge strip w :
  (process_file lower cfg p dry merge strip w).1.2 =
  if reconciles lower cfg (RawKeywordSet w p) merge
  then remove_marker lower cfg (RawKeywordSet w p) else [].
Proof.
  rewrite process_file_eq. unfold reconciles. cbv zeta.
  case_bool_decide; [reflexivity|].
  destruct (marker_missing cfg _); [reflexivity|].
  destruct (_ && _ && _); [reflexivity|]. simpl.
  rewrite reconcile_eq. cbv zeta. destruct dry; reflexivity.
Qed.

Lemma process_file_but p dry merge strip :
  keeps (same_files_but p) (process_file lower cfg p dry merge strip).
Proof.
  apply process_file_keeps; [apply _|intros w0 q _; reflexivity|].
  intros keywords. apply reconcile_keeps; [apply _|intros w0 q _; reflexivity|].
  intros _ tags. apply set_finder_tags_but.
Qed.

Lemma process_file_same_but_tags p dry merge strip :
  keeps same_but_tags (process_file lower cfg p dry merge strip).
Proof.
  apply process_file_keeps; [apply _|intros w0 q; reflexivity|].
  intros keywords. apply reconcile_keeps; [apply _|intros w0 q; reflexivity|].
  intros _ tags. apply set_finder_tags_same_but_tags.
Qed.

Lemma process_file_same_files p merge strip :
  keeps same_files (process_file lower cfg p true merge strip).
Proof.
  apply process_file_keeps; [apply _|reflexivity|].
  intros keywords. apply reconcile_keeps; [apply _|reflexivity|discriminate].
Qed.

Lemma process_file_temp_grow p dry merge strip :
  keeps temp_files_grow (process_file lower cfg p dry merge strip).
Proof.
  apply process_file_keeps; [apply _|intros w0; exists []; reflexivity|].
  intros keywords. apply reconcile_keeps; [apply _|intros w0; exists []; reflexivity|].
  intros _ tags. apply set_finder_tags_temp_grow.
Qed.

Lemma merge_write_grows p keywords w :
  tags_grow w
    (set_finder_tags p
       (elements (list_to_set ((get_finder_tags p w).1 ++ keywords) : gset string))
       (logged (XattrP p) w)).2.
Proof.
  split; [exact (set_finder_tags_tool p _ (logged (XattrP p) w))|].
  intros Htool q.
  destruct (decide (q = p)) as [->|Hne].
  - rewrite set_finder_tags_TagSet.
    change (attribute_writable (logged (XattrP p) w) p) with (attribute_writable w p).
    rewrite TagSet_logged.
    destruct (attribute_writable w p); [|done].
    rewrite merged_first_lines by apply current_tags_single_line.
    fold (ExistingTags w p). rewrite ExistingTags_eq, Htool.
    apply union_subseteq_l.
  - pose proof (set_finder_tags_but p
        (elements (list_to_set ((get_finder_tags p w).1 ++ keywords) : gset string))
        (logged (XattrP p) w) q Hne) as Hq.
    rewrite (TagSet_files w _ q Hq). done.
Qed.

Lemma logged_grows c w : tags_grow w (logged c w).
Proof. split; [reflexivity|]. intros _ q. reflexivity. Qed.

Lemma reconcile_grows p dry keywords : keeps tags_grow (reconcile p dry true keywords).
Proof.
  intros w. rewrite reconcile_eq. cbv zeta. destruct dry; simpl.
  - apply logged_grows.
  - apply merge_write_grows.
Qed.

Lemma process_file_grows p dry strip :
  keeps tags_grow (process_file lower cfg p dry true strip).
Proof.
  apply process_file_keeps; [apply _|apply logged_grows|]. apply reconcile_grows.
Qed.

Lemma reconcile_temp p dry merge keywords w :
  leaves_temp (reconcile p dry merge keywords w).1.1 w (reconcile p dry merge keywords w).2.
Proof.
  rewrite reconcile_eq. cbv zeta. destruct dry; simpl.
  - destruct merge; reflexivity.
  - unfold leaves_temp. rewrite set_finder_tags_temp.
    destruct (set_finder_tags _ _ _).1; destruct merge; eauto.
Qed.

Lemma process_file_temp p dry merge strip w :
  leaves_temp (process_file lower cfg p dry merge strip w).1.1 w
    (process_file lower cfg p dry merge strip w).2.
Proof.
  rewrite process_file_eq. cbv zeta.
  case_bool_decide; [reflexivity|].
  destruct (marker_missing cfg _); [reflexivity|].
  destruct (_ && _ && _).
  - destruct (negb _); reflexivity.
  - pose proof (reconcile_temp p dry merge (remove_marker lower cfg (RawKeywordSet w p))
        (if negb (eqb strip (STRIP_HIERARCHICAL_PREFIXES cfg))
         then logged (Exiftool p) (logged (Exiftool p) w) else logged (Exiftool p) w)) as Htemp.
    destruct (negb _); exact Htemp.
Qed.

(** X7. [process_file] changes nothing but the tag attribute of the file
    it is given: every other file stays as it is, and of the file itself
    the metadata and the permission stay as they are. No file appears or
    disappears, but for one temporary file, which is left behind exactly
    when [process_file] reports failure. *)
Theorem process_file_frame_all p dry merge strip w :
  let r := process_file lower cfg p dry merge strip w in
  same_files_but p w r.2 ∧ same_but_tags w r.2 ∧
  (r.1.1 = true → temp_files r.2 = temp_files w) ∧
  (r.1.1 = false → ∃ entries, temp_files r.2 = entries :: temp_files w).
Proof.
  intros r. subst r.
  split; [apply process_file_but|]. split; [apply process_file_same_but_tags|].
  pose proof (process_file_temp p dry merge strip w) as H.
  destruct (process_file lower cfg p dry merge strip w).1.1; simpl in H.
  - split; [intros _; exact H|discriminate].
  - split; [discriminate|intros _; exact H].
Qed.

(** X8. A dry run of [process_file] changes no file and writes no tag, it
    reports success, and it reports the keywords the real run reports. *)
Theorem dry_run_harmless p merge strip w :
  let r := process_file lower cfg p true merge strip w in
  files r.2 = files w ∧
  tag_writes (log r.2) = tag_writes (log w) ∧
  r.1.1 = true ∧
  r.1.2 = (process_file lower cfg p false merge strip w).1.2.
Proof.
  intros r. subst r. split; [|split; [|split]].
  - apply process_file_same_files.
  - rewrite process_file_tag_writes, andb_false_r. lia.
  - rewrite process_file_eq. cbv zeta.
    case_bool_decide; [reflexivity|].
    destruct (marker_missing cfg _); [reflexivity|].
    destruct (_ && _ && _); [reflexivity|].
    rewrite reconcile_eq. reflexivity.
  - rewrite !process_file_keywords. reflexivity.
Qed.

(** X9. The keywords [process_file] reports are raw keywords of the file,
    without duplicates; with no marker configured they are all the raw
    keywords. *)
Theorem reported_keywords p dry merge strip w :
  let keywords := (process_file lower cfg p dry merge strip w).1.2 in
  NoDup keywords ∧
  keywords ⊆ RawKeywordSet w p ∧
  (marker cfg = None → keywords = RawKeywordSet w p).
Proof.
  intros keywords. subst keywords. rewrite process_file_keywords.
  assert (Hnodup : NoDup (RawKeywordSet w p)).
  { unfold RawKeywordSet, get_xmp_keywords, bind, run_exiftool, ret.
    destruct (default ExifError _) as [| |[|md data]]; simpl;
      [constructor..|apply NoDup_elements]. }
  split; [|split].
  - destruct (reconciles _ _ _ _); [|constructor].
    unfold remove_marker. destruct (marker cfg); [apply NoDup_filter|]; exact Hnodup.
  - destruct (reconciles _ _ _ _); [|apply list_subseteq_nil].
    unfold remove_marker. destruct (marker cfg); [|done].
    intros k Hk. apply list_elem_of_filter in Hk as [_ Hk]. exact Hk.
  - intros Hnone. unfold reconciles, marker_missing, remove_marker. rewrite Hnone. simpl.
    case_bool_decide as Hraw; [rewrite Hraw|]; reflexivity.
Qed.

(** X10. [process_file] reports failure only for a write that failed: on a
    file whose attribute may be changed it always reports success, and
    when it reports failure no file has changed, the last command run is
    the write, and the temporary file with the entries of that write is
    left behind. *)
Theorem process_file_failure p dry merge strip w :
  let r := process_file lower cfg p dry merge strip w in
  (attribute_writable w p = true → r.1.1 = true) ∧
  (r.1.1 = false →
   dry = false ∧ attribute_writable w p = false ∧ files r.2 = files w ∧
   ∃ entries, head (log r.2) = Some (XattrWX p entries) ∧
              temp_files r.2 = entries :: temp_files w).
Proof.
  intros r. subst r.
  assert (Hfail : (process_file lower cfg p dry merge strip w).1.1 = false →
    dry = false ∧ attribute_writable w p = false ∧
    files (process_file lower cfg p dry merge strip w).2 = files w ∧
    ∃ entries, head (log (process_file lower cfg p dry merge strip w).2)
               = Some (XattrWX p entries) ∧
               temp_files (process_file lower cfg p dry merge strip w).2
               = entries :: temp_files w).
  { rewrite process_file_eq. cbv zeta.
    case_bool_decide; [discriminate|].
    destruct (marker_missing cfg _); [discriminate|].
    destruct (_ && _ && _); [discriminate|].
    rewrite reconcile_eq. cbv zeta.
    destruct dry; [discriminate|]. cbn -[set_finder_tags].
    intros Hf. split; [reflexivity|].
    apply set_finder_tags_fails in Hf as (Hne & Hwr & Hfiles & Htemp).
    split; [|split].
    - rewrite <- Hwr. destruct merge, (negb _); reflexivity.
    - rewrite Hfiles. destruct merge, (negb _); reflexivity.
    - rewrite set_finder_tags_log. rewrite bool_decide_eq_false_2 by exact Hne.
      eexists. split; [reflexivity|]. rewrite Htemp.
      destruct merge, (negb _); reflexivity. }
  split; [|exact Hfail].
  intros Hwr. destruct (_.1.1) eqn:Hres; [reflexivity|].
  destruct (Hfail eq_refl) as (_ & Hno & _). congruence.
Qed.

(** *** Sidecar files *)

Lemma process_xmp_sidecar_eq sidecar_path dry merge strip :
  process_xmp_sidecar lower cfg sidecar_path dry merge strip =
  let main_file := path_with_suffix_empty sidecar_path in
  let* main_exists := path_exists main_file in
  if negb main_exists then ret (false, 0)
  else
    let* keywords := get_xmp_keywords sidecar_path strip in
    if bool_decide (keywords = []) then ret (true, 0)
    else
      match marker cfg with
      | Some _ =>
          let* raw_keywords := get_xmp_keywords sidecar_path false in
          if marker_missing cfg raw_keywords then ret (true, 0)
          else if bool_decide (remove_marker lower cfg keywords = []) then ret (true, 0)
          else sidecar_store main_file dry merge (remove_marker lower cfg keywords)
      | None => sidecar_store main_file dry merge keywords
      end.
Proof. reflexivity. Qed.

Lemma path_exists_keeps (R : relation world) `{!Reflexive R} p : keeps R (path_exists p).
Proof. intros w. reflexivity. Qed.

Lemma process_xmp_sidecar_keeps (R : relation world) `{!PreOrder R} sidecar_path dry merge strip :
  (∀ w, R w (logged (Exiftool sidecar_path) w)) →
  (∀ keywords, keywords ≠ [] →
     keeps R (sidecar_store (path_with_suffix_empty sidecar_path) dry merge keywords)) →
  keeps R (process_xmp_sidecar lower cfg sidecar_path dry merge strip).
Proof.
  intros Hlog Hstore. rewrite process_xmp_sidecar_eq. cbv zeta.
  apply keeps_bind; [apply _|apply path_exists_keeps, _|].
  intros main_exists. destruct (negb main_exists); [apply keeps_ret, _|].
  apply keeps_bind; [apply _|apply get_xmp_keywords_keeps, Hlog|].
  intros keywords. case_bool_decide as Hkw; [apply keeps_ret, _|].
  destruct (marker cfg); [|apply Hstore, Hkw].
  apply keeps_bind; [apply _|apply get_xmp_keywords_keeps, Hlog|].
  intros raw. destruct (marker_missing cfg raw); [apply keeps_ret, _|].
  case_bool_decide as Hkw'; [apply keeps_ret, _|apply Hstore, Hkw'].
Qed.

Lemma merged_nonempty (existing keywords : list string) :
  keywords ≠ [] → elements (list_to_set (existing ++ keywords) : gset string) ≠ [].
Proof.
  destruct keywords as [|k keywords]; [done|]. intros _ Hnil.
  assert (Hk : k ∈ elements (list_to_set (existing ++ k :: keywords) : gset string)).
  { rewrite elem_of_elements, elem_of_list_to_set, elem_of_app. right. left. }
  rewrite Hnil in Hk. inversion Hk.
Qed.

Lemma sidecar_store_keeps (R : relation world) `{!PreOrder R} main dry merge keywords :
  keywords ≠ [] →
  (∀ w, R w (logged (XattrP main) w)) →
  (dry = false → ∀ tags, tags ≠ [] → keeps R (set_finder_tags main tags)) →
  keeps R (sidecar_store main dry merge keywords).
Proof.
  intros Hkw Hlog Hset. unfold sidecar_store. destruct dry; [apply keeps_ret, _|].
  destruct merge.
  - intros w. unfold bind. rewrite get_finder_tags_eq. simpl.
    transitivity (logged (XattrP main) w); [apply Hlog|].
    pose proof (Hset eq_refl _ (merged_nonempty (get_finder_tags main w).1 keywords Hkw)
                  (logged (XattrP main) w)) as H.
    destruct (set_finder_tags _ _ _) as [success w']. exact H.
  - intros w. unfold bind, ret at 1.
    pose proof (Hset eq_refl _ Hkw w) as H.
    destruct (set_finder_tags _ _ _) as [success w']. exact H.
Qed.

Lemma set_finder_tags_log_grows (P : command → Prop) p tags :
  P (if bool_decide (tags = []) then XattrD p else XattrWX p (format_tag <$> tags)) →
  keeps (log_grows_by P) (set_finder_tags p tags).
Proof.
  intros HP w. exists [if bool_decide (tags = []) then XattrD p else XattrWX p (format_tag <$> tags)].
  split; [apply set_finder_tags_log|]. constructor; [exact HP|constructor].
Qed.

Lemma bind_result {A B} (I : world → Prop) (Q : B → Prop) (c : M A) (k : A → M B) :
  (∀ w, I w → I (c w).2) →
  (∀ a w, I w → Q (k a w).1) →
  ∀ w, I w → Q (bind c k w).1.
Proof.
  intros Hc Hk w Hw. unfold bind. specialize (Hc w Hw).
  destruct (c w) as [a w1]. apply Hk, Hc.
Qed.

(** X11. A sidecar file at whose main path nothing exists, neither a file
    nor a directory, is reported as a failure, [(False, 0)], and nothing at
    all is run for it. When something exists there (a directory is
    treated like a file) and its attributes may be changed, the sidecar
    is reported as a success. *)
Theorem sidecar_without_main sidecar_path dry merge strip w :
  (files w !! path_with_suffix_empty sidecar_path = None →
   process_xmp_sidecar lower cfg sidecar_path dry merge strip w = ((false, 0), w)) ∧
  (attribute_writable w (path_with_suffix_empty sidecar_path) = true →
   (process_xmp_sidecar lower cfg sidecar_path dry merge strip w).1.1 = true).
Proof.
  split.
  { intros Hnone. rewrite process_xmp_sidecar_eq. cbv zeta.
    unfold bind at 1. unfold path_exists. rewrite Hnone. reflexivity. }
  set (main := path_with_suffix_empty sidecar_path).
  assert (Hstore : ∀ keywords w0,
            attribute_writable w0 main = true →
            (sidecar_store main dry merge keywords w0).1.1 = true).
  { intros keywords w0 Hwr. unfold sidecar_store. destruct dry; [reflexivity|].
    unfold bind, ret. destruct merge.
    - rewrite get_finder_tags_eq.
      pose proof (set_finder_tags_success main
                    (elements (list_to_set ((get_finder_tags main w0).1 ++ keywords) : gset string))
                    (logged (XattrP main) w0)) as Hok.
      change (attribute_writable (logged (XattrP main) w0) main)
        with (attribute_writable w0 main) in Hok. rewrite Hwr in Hok.
      destruct (set_finder_tags _ _ _) as [success w']. simpl in *.
      rewrite Hok. case_bool_decide; reflexivity.
    - pose proof (set_finder_tags_success main keywords w0) as Hok. rewrite Hwr in Hok.
      destruct (set_finder_tags _ _ _) as [success w']. simpl in *.
      rewrite Hok. case_bool_decide; reflexivity. }
  assert (Hread : ∀ b w0, attribute_writable w0 main = true →
                          attribute_writable (get_xmp_keywords sidecar_path b w0).2 main = true).
  { intros b w0 Hwr. rewrite get_xmp_keywords_eq. exact Hwr. }
  revert w. rewrite process_xmp_sidecar_eq. cbv zeta. fold main.
  intros w Hwr.
  unfold bind at 1. unfold path_exists.
  rewrite bool_decide_eq_true_2 by (apply writable_present, Hwr). simpl.
  revert w Hwr.
  apply (bind_result (λ w, attribute_writable w main = true)
           (λ r : bool * nat, r.1 = true)); [apply Hread|].
  intros keywords. case_bool_decide; [reflexivity|].
  destruct (marker cfg); [|apply Hstore].
  apply (bind_result (λ w, attribute_writable w main = true)
           (λ r : bool * nat, r.1 = true)); [apply Hread|].
  intros raw. destruct (marker_missing cfg raw); [reflexivity|].
  case_bool_decide; [reflexivity|apply Hstore].
Qed.

Lemma sidecar_log_grows sidecar_path dry merge strip :
  keeps (log_grows_by (sidecar_command sidecar_path))
    (process_xmp_sidecar lower cfg sidecar_path dry merge strip).
Proof.
  apply process_xmp_sidecar_keeps; [apply _| |].
  - intros w0. apply log_grows_by_logged. left. reflexivity.
  - intros keywords Hkw. apply sidecar_store_keeps; [apply _|exact Hkw| |].
    + intros w0. apply log_grows_by_logged. right. left. reflexivity.
    + intros _ tags Htags. apply set_finder_tags_log_grows.
      rewrite bool_decide_eq_false_2 by exact Htags.
      right. right. eexists. split; [|reflexivity].
      destruct tags; [done|discriminate].
Qed.

Lemma sidecar_but sidecar_path dry merge strip :
  keeps (same_files_but (path_with_suffix_empty sidecar_path))
    (process_xmp_sidecar lower cfg sidecar_path dry merge strip).
Proof.
  apply process_xmp_sidecar_keeps; [apply _|intros w0 q _; reflexivity|].
  intros keywords Hkw. apply sidecar_store_keeps; [apply _|exact Hkw|intros w0 q _; reflexivity|].
  intros _ tags _. apply set_finder_tags_but.
Qed.

Lemma sidecar_same_but_tags sidecar_path dry merge strip :
  keeps same_but_tags (process_xmp_sidecar lower cfg sidecar_path dry merge strip).
Proof.
  apply process_xmp_sidecar_keeps; [apply _|intros w0 q; reflexivity|].
  intros keywords Hkw. apply sidecar_store_keeps; [apply _|exact Hkw|intros w0 q; reflexivity|].
  intros _ tags _. apply set_finder_tags_same_but_tags.
Qed.

Lemma sidecar_same_files sidecar_path merge strip :
  keeps same_files (process_xmp_sidecar lower cfg sidecar_path true merge strip).
Proof.
  apply process_xmp_sidecar_keeps; [apply _|reflexivity|].
  intros keywords Hkw. apply sidecar_store_keeps; [apply _|exact Hkw|reflexivity|discriminate].
Qed.

Lemma sidecar_grows sidecar_path dry strip :
  keeps tags_grow (process_xmp_sidecar lower cfg sidecar_path dry true strip).
Proof.
  apply process_xmp_sidecar_keeps; [apply _|apply logged_grows|].
  intros keywords _ w. unfold sidecar_store. destruct dry; [reflexivity|].
  unfold bind. rewrite get_finder_tags_eq. simpl.
  pose proof (merge_write_grows (path_with_suffix_empty sidecar_path) keywords w) as H.
  destruct (set_finder_tags _ _ _) as [success w']. exact H.
Qed.

Lemma sidecar_count sidecar_path dry merge strip :
  returns (λ r : bool * nat, (r.2 ≤ 1)%nat) (process_xmp_sidecar lower cfg sidecar_path dry merge strip).
Proof.
  assert (Hstore : ∀ keywords,
            returns (λ r : bool * nat, (r.2 ≤ 1)%nat)
              (sidecar_store (path_with_suffix_empty sidecar_path) dry merge keywords)).
  { intros keywords. unfold sidecar_store. destruct dry; [apply returns_ret; simpl; lia|].
    apply returns_bind. intros kws. apply returns_bind. intros success.
    apply returns_ret. destruct success; simpl; lia. }
  rewrite process_xmp_sidecar_eq. cbv zeta.
  apply returns_bind. intros main_exists.
  destruct (negb main_exists); [apply returns_ret; simpl; lia|].
  apply returns_bind. intros keywords.
  case_bool_decide; [apply returns_ret; simpl; lia|].
  destruct (marker cfg); [|apply Hstore].
  apply returns_bind. intros raw.
  destruct (marker_missing cfg raw); [apply returns_ret; simpl; lia|].
  case_bool_decide; [apply returns_ret; simpl; lia|apply Hstore].
Qed.

Lemma sidecar_store_temp main dry merge keywords w :
  leaves_temp (sidecar_store main dry merge keywords w).1.1 w
    (sidecar_store main dry merge keywords w).2.
Proof.
  unfold sidecar_store. destruct dry; [reflexivity|].
  unfold leaves_temp, bind, ret. destruct merge.
  - rewrite get_finder_tags_eq.
    pose proof (set_finder_tags_temp main
                  (elements (list_to_set ((get_finder_tags main w).1 ++ keywords) : gset string))
                  (logged (XattrP main) w)) as Htemp.
    destruct (set_finder_tags _ _ _) as [[] w']; simpl in *; eauto.
  - pose proof (set_finder_tags_temp main keywords w) as Htemp.
    destruct (set_finder_tags _ _ _) as [[] w']; simpl in *; eauto.
Qed.

Lemma bind_success_temp {A} (c : M A) (k : A → M (bool * nat)) :
  (∀ w, temp_files (c w).2 = temp_files w) →
  (∀ a w, (k a w).1.1 = true → temp_files (k a w).2 = temp_files w) →
  ∀ w, (bind c k w).1.1 = true → temp_files (bind c k w).2 = temp_files w.
Proof.
  intros Hc Hk w. unfold bind. specialize (Hc w).
  destruct (c w) as [a w1]. simpl in Hc. intros Hok.
  rewrite (Hk a w1 Hok). exact Hc.
Qed.

Lemma sidecar_temp sidecar_path dry merge strip w :
  (process_xmp_sidecar lower cfg sidecar_path dry merge strip w).1.1 = true →
  temp_files (process_xmp_sidecar lower cfg sidecar_path dry merge strip w).2 = temp_files w.
Proof.
  assert (Hstore : ∀ keywords w0,
            (sidecar_store (path_with_suffix_empty sidecar_path) dry merge keywords w0).1.1 = true →
            temp_files (sidecar_store (path_with_suffix_empty sidecar_path) dry merge keywords w0).2
            = temp_files w0).
  { intros keywords w0 Hok.
    pose proof (sidecar_store_temp (path_with_suffix_empty sidecar_path) dry merge keywords w0)
      as Htemp.
    rewrite Hok in Htemp. exact Htemp. }
  assert (Hread : ∀ b w0, temp_files (get_xmp_keywords sidecar_path b w0).2 = temp_files w0).
  { intros b w0. rewrite get_xmp_keywords_eq. reflexivity. }
  revert w. rewrite process_xmp_sidecar_eq. cbv zeta.
  apply bind_success_temp; [reflexivity|].
  intros main_exists. destruct (negb main_exists); [discriminate|].
  apply bind_success_temp; [apply Hread|].
  intros keywords. case_bool_decide; [reflexivity|].
  destruct (marker cfg); [|apply Hstore].
  apply bind_success_temp; [apply Hread|].
  intros raw. destruct (marker_missing cfg raw); [reflexivity|].
  case_bool_decide; [reflexivity|apply Hstore].
Qed.

Lemma sidecar_temp_grow sidecar_path dry merge strip :
  keeps temp_files_grow (process_xmp_sidecar lower cfg sidecar_path dry merge strip).
Proof.
  apply process_xmp_sidecar_keeps; [apply _|intros w0; exists []; reflexivity|].
  intros keywords Hkw. apply sidecar_store_keeps;
    [apply _|exact Hkw|intros w0; exists []; reflexivity|].
  intros _ tags _. apply set_finder_tags_temp_grow.
Qed.

(** X12. Whatever the mode, a sidecar file causes only a metadata read of
    the sidecar, a read of the tags of its main file and a write of a
    non-empty tag list to its main file: the tag attribute is never
    removed, and no file other than the main file changes, the main file
    keeping its metadata. No file appears, but for the temporary file of a
    write that failed; there is none when success is reported. *)
Theorem sidecar_effects sidecar_path dry merge strip w :
  let r := process_xmp_sidecar lower cfg sidecar_path dry merge strip w in
  log_grows_by (sidecar_command sidecar_path) w r.2 ∧
  same_files_but (path_with_suffix_empty sidecar_path) w r.2 ∧
  same_but_tags w r.2 ∧
  temp_files_grow w r.2 ∧
  (r.1.1 = true → temp_files r.2 = temp_files w).
Proof.
  split; [apply sidecar_log_grows|]. split; [apply sidecar_but|].
  split; [apply sidecar_same_but_tags|]. split; [apply sidecar_temp_grow|apply sidecar_temp].
Qed.

(** *** The folder pass *)

Lemma process_entry_keeps (R : relation world) `{!PreOrder R} dry merge strip c p :
  keeps R (process_file lower cfg p dry merge strip) →
  keeps R (process_xmp_sidecar lower cfg p dry merge strip) →
  keeps R (process_entry lower cfg dry merge strip c p).
Proof.
  intros Hfile Hside. unfold process_entry.
  destruct (negb _); [apply keeps_ret, _|].
  case_bool_decide.
  - apply keeps_bind; [apply _|exact Hside|]. intros [success count]. apply keeps_ret, _.
  - apply keeps_bind; [apply _|exact Hfile|]. intros [success keywords].
    destruct (negb success); [apply keeps_ret, _|].
    destruct (negb _); apply keeps_ret, _.
Qed.

Lemma process_entries_keeps (R : relation world) `{!PreOrder R} dry merge strip walk :
  (∀ p, keeps R (process_file lower cfg p dry merge strip)) →
  (∀ p, keeps R (process_xmp_sidecar lower cfg p dry merge strip)) →
  ∀ c, keeps R (process_entries lower cfg dry merge strip c walk).
Proof.
  intros Hfile Hside. induction walk as [|p rest IH]; intros c; simpl.
  - apply keeps_ret, _.
  - apply keeps_bind; [apply _|apply process_entry_keeps; auto|]. intros c'. apply IH.
Qed.

Lemma process_folder_keeps (R : relation world) `{!PreOrder R} folder dry merge strip :
  (∀ p, keeps R (process_file lower cfg p dry merge strip)) →
  (∀ p, keeps R (process_xmp_sidecar lower cfg p dry merge strip)) →
  keeps R (process_folder lower cfg folder dry merge strip).
Proof.
  intros Hfile Hside. unfold process_folder.
  apply keeps_bind; [apply _|intros w; reflexivity|].
  intros walk. apply process_entries_keeps; auto.
Qed.

Lemma process_entries_cons dry merge strip c p rest w :
  process_entries lower cfg dry merge strip c (p :: rest) w =
  process_entries lower cfg dry merge strip
    (process_entry lower cfg dry merge strip c p w).1 rest
    (process_entry lower cfg dry merge strip c p w).2.
Proof.
  simpl. unfold bind at 1. destruct (process_entry _ _ _ _ _ _ _ _); reflexivity.
Qed.

(** What one entry of the walk adds to the counters. *)
Lemma process_entry_counters dry merge strip c p w :
  let c' := (process_entry lower cfg dry merge strip c p w).1 in
  let main := length (main_files lower [p]) in
  let side := length (sidecar_files lower [p]) in
  processed c' = processed c + main ∧
  ∃ e t, errors c' = errors c + e ∧ tagged c' = tagged c + t ∧
         (e + t ≤ main + side)%nat ∧ (e ≤ main)%nat ∧ (t ≤ main + side)%nat.
Proof.
  unfold process_entry, main_files, sidecar_files.
  rewrite !filter_cons, !filter_nil.
  case_bool_decide as Hsup; simpl.
  2:{ rewrite decide_False by tauto.
      rewrite decide_False by (intros Heq; apply Hsup; rewrite Heq; set_solver).
      simpl. split; [lia|]. exists 0, 0. lia. }
  case_bool_decide as Hxmp.
  - rewrite decide_False by tauto. rewrite decide_True by done. simpl.
    unfold bind. pose proof (sidecar_count p dry merge strip w) as Hcount.
    destruct (process_xmp_sidecar _ _ _ _ _ _ _) as [[success count] w1].
    simpl in *. split; [lia|]. exists 0, count. lia.
  - rewrite decide_True by done. rewrite decide_False by done. simpl.
    unfold bind. destruct (process_file _ _ _ _ _ _ _) as [[success keywords] w1].
    destruct success; simpl.
    + case_bool_decide; simpl; (split; [lia|]); [exists 0, 0|exists 0, 1]; lia.
    + split; [lia|]. exists 1, 0. lia.
Qed.

(** X13. A sidecar file never counts as processed and never as an error in
    the folder pass, even when writing the tags of its main file fails or
    the main file is missing; it adds at most one to the tagged count. *)
Theorem sidecar_not_counted dry merge strip c p w :
  lower (path_suffix p) = ".xmp" →
  let c' := (process_entry lower cfg dry merge strip c p w).1 in
  processed c' = processed c ∧ errors c' = errors c ∧
  (tagged c ≤ tagged c' ≤ tagged c + 1)%nat.
Proof.
  intros Hxmp c'. subst c'.
  destruct (process_entry_counters dry merge strip c p w) as (Hp & e & t & He & Ht & Hsum & Hmain & _).
  unfold main_files, sidecar_files in *. rewrite !filter_cons, !filter_nil in *.
  rewrite decide_False in * by tauto. rewrite decide_True in Hsum by done.
  simpl in *. lia.
Qed.

Lemma process_entries_counters dry merge strip walk c w :
  let c' := (process_entries lower cfg dry merge strip c walk w).1 in
  processed c' = processed c + length (main_files lower walk) ∧
  ∃ e t, errors c' = errors c + e ∧ tagged c' = tagged c + t ∧
         (e + t ≤ length (main_files lower walk) + length (sidecar_files lower walk))%nat ∧
         (e ≤ length (main_files lower walk))%nat.
Proof.
  revert c w. induction walk as [|p rest IH]; intros c w.
  - simpl. split; [lia|]. exists 0, 0. simpl. lia.
  - cbv zeta. rewrite process_entries_cons.
    destruct (process_entry_counters dry merge strip c p w)
      as (Hp & e1 & t1 & He1 & Ht1 & Hsum1 & Hmain1 & _).
    destruct (IH (process_entry lower cfg dry merge strip c p w).1
                 (process_entry lower cfg dry merge strip c p w).2)
      as (Hp2 & e2 & t2 & He2 & Ht2 & Hsum2 & Hmain2).
    assert (Hm : length (main_files lower (p :: rest))
                 = length (main_files lower [p]) + length (main_files lower rest)).
    { change (p :: rest) with ([p] ++ rest). unfold main_files.
      rewrite filter_app, length_app. reflexivity. }
    assert (Hs : length (sidecar_files lower (p :: rest))
                 = length (sidecar_files lower [p]) + length (sidecar_files lower rest)).
    { change (p :: rest) with ([p] ++ rest). unfold sidecar_files.
      rewrite filter_app, length_app. reflexivity. }
    split; [lia|]. exists (e1 + e2), (t1 + t2). lia.
Qed.

(** X14. The counters of a pass over a walk: the processed count grows by
    the number of main files (supported extension, not a sidecar); every
    main file adds at most one to the tagged count or to the error count,
    never to both, every sidecar at most one to the tagged count, and any
    other file nothing. *)
Theorem folder_counters dry merge strip walk c w :
  let c' := (process_entries lower cfg dry merge strip c walk w).1 in
  processed c' = processed c + length (main_files lower walk) ∧
  ∃ e t, errors c' = errors c + e ∧ tagged c' = tagged c + t ∧
         (e + t ≤ length (main_files lower walk) + length (sidecar_files lower walk))%nat ∧
         (e ≤ length (main_files lower walk))%nat.
Proof. apply process_entries_counters. Qed.

(** X15. A dry run of the folder pass changes no file. *)
Theorem folder_dry_run folder merge strip w :
  files (process_folder lower cfg folder true merge strip w).2 = files w.
Proof.
  apply (process_folder_keeps same_files);
    [intros p; apply process_file_same_files|intros p; apply sidecar_same_files].
Qed.

(** X16. When [xattr -p] prints the stored bytes, the folder pass in
    merge mode never removes a tag from any file: the TagSet of every file
    afterwards includes its TagSet before. *)
Theorem folder_merge_keeps_tags folder dry strip w q :
  xattr_p_raw w = true →
  TagSet w q ⊆ TagSet (process_folder lower cfg folder dry true strip w).2 q.
Proof.
  intros Htool.
  assert (H : tags_grow w (process_folder lower cfg folder dry true strip w).2).
  { apply (process_folder_keeps tags_grow);
      [intros p; apply process_file_grows|intros p; apply sidecar_grows]. }
  apply H, Htool.
Qed.

Lemma same_but_tags_observed w w' q :
  same_but_tags w w' →
  (is_Some (files w' !! q) ↔ is_Some (files w !! q)) ∧
  is_dir <$> files w' !! q = is_dir <$> files w !! q ∧
  metadata_output w' q = metadata_output w q ∧
  attribute_writable w' q = attribute_writable w q.
Proof.
  intros H. specialize (H q). unfold metadata_output, attribute_writable.
  destruct (files w' !! q) as [f'|], (files w !! q) as [f|]; simpl in *;
    try discriminate.
  - injection H as Hd He Hx. rewrite Hd, He, Hx. split; [|done]. split; eauto.
  - split; [|done]. split; intros [? ?]; done.
Qed.

(** X17. In either mode the folder pass changes nothing but tag
    attributes: afterwards the same files and directories exist, each
    with the metadata and the permission it had. Nothing appears but
    temporary files, which failed writes leave behind; the ones that were
    there stay. *)
Theorem folder_only_tags folder dry merge strip w q :
  let w' := (process_folder lower cfg folder dry merge strip w).2 in
  ((is_Some (files w' !! q) ↔ is_Some (files w !! q)) ∧
   is_dir <$> files w' !! q = is_dir <$> files w !! q ∧
   metadata_output w' q = metadata_output w q ∧
   attribute_writable w' q = attribute_writable w q) ∧
  temp_files_grow w w'.
Proof.
  split.
  - apply same_but_tags_observed.
    apply (process_folder_keeps same_but_tags);
      [intros p; apply process_file_same_but_tags|intros p; apply sidecar_same_but_tags].
  - apply (process_folder_keeps temp_files_grow);
      [intros p; apply process_file_temp_grow|intros p; apply sidecar_temp_grow].
Qed.

(** *** Check mode *)

Lemma display_keywords_eq p w : display_keywords p w = ((), logged (Exiftool p) w).
Proof.
  unfold display_keywords, get_detailed_keywords, bind, run_exiftool, ret.
  destruct (default ExifError _) as [| |[|md data]]; reflexivity.
Qed.

Lemma check_entries_spec walk n w :
  (check_entries lower n walk w).1 = n + length (main_files lower walk) ∧
  files (check_entries lower n walk w).2 = files w ∧
  log_grows_by (λ c, ∃ p, p ∈ main_files lower walk ∧ c = Exiftool p) w
    (check_entries lower n walk w).2.
Proof.
  revert n w. induction walk as [|p rest IH]; intros n w.
  - simpl. split; [lia|]. split; [reflexivity|]. exists []. split; [reflexivity|constructor].
  - simpl. unfold main_files. rewrite filter_cons. fold (main_files lower rest).
    case_bool_decide as Hsup; simpl.
    2:{ rewrite decide_False by tauto. apply IH. }
    case_bool_decide as Hxmp.
    { rewrite decide_False by tauto. apply IH. }
    rewrite decide_True by done. unfold bind. rewrite display_keywords_eq.
    destruct (IH (n + 1) (logged (Exiftool p) w)) as (Hn & Hfiles & cmds & Hlog & Hcmds).
    split; [rewrite Hn; simpl; lia|]. split; [rewrite Hfiles; reflexivity|].
    exists (cmds ++ [Exiftool p]). split.
    + rewrite Hlog. simpl. rewrite <- app_assoc. reflexivity.
    + apply Forall_app. split.
      * eapply Forall_impl; [exact Hcmds|]. intros c (q & Hq & ->).
        exists q. split; [right; exact Hq|reflexivity].
      * constructor; [|constructor]. exists p. split; [left|reflexivity].
Qed.

(** X18. Check mode only reads: [check_keywords_folder] changes no file
    and runs nothing but one exiftool call for each main file of the
    folder; the count it returns is the number of those files, which is the
    processed count the folder pass reports for the same folder. *)
Theorem check_mode_reads_only folder dry merge strip w :
  let r := check_keywords_folder lower folder w in
  files r.2 = files w ∧
  log_grows_by (λ c, ∃ p, c = Exiftool p) w r.2 ∧
  r.1 = length (main_files lower (os_walk folder w).1) ∧
  r.1 = processed (process_folder lower cfg folder dry merge strip w).1.
Proof.
  intros r. subst r. unfold check_keywords_folder, process_folder, bind. simpl.
  set (walk := filter _ (elements (dom (files w)))).
  destruct (check_entries_spec walk 0 w) as (Hn & Hfiles & Hlog).
  split; [exact Hfiles|]. split; [|split].
  - eapply log_grows_by_weaken; [|exact Hlog]. intros c (p & _ & ->). eauto.
  - rewrite Hn. reflexivity.
  - rewrite Hn.
    destruct (process_entries_counters dry merge strip walk
                {| processed := 0; tagged := 0; errors := 0 |} w) as [-> _].
    reflexivity.
Qed.

(** *** The watcher *)

Lemma watch_turn_line st line present mt now :
  line ≠ "" →
  watch_turn lower st (Line line present mt now) = Continue st [] ∨
  ∃ mtime,
    mt = Some mtime ∧ present = true ∧
    lower (path_suffix (strip line)) ∈ SUPPORTED_EXTENSIONS ∧
    watch_turn lower st (Line line present mt now)
    = Continue (accepted st (strip line) mtime now) [].
Proof.
  intros Hline. unfold watch_turn. rewrite bool_decide_eq_false_2 by exact Hline.
  case_bool_decide as Hsup; simpl; [|left; reflexivity].
  destruct present; simpl; [|left; reflexivity].
  destruct mt as [mtime|]; [|left; reflexivity].
  destruct (_ && _); [left; reflexivity|].
  right. exists mtime. done.
Qed.

Lemma watch_turn_timeout st now :
  (flush_due st now ∧
   watch_turn lower st (TimedOut now) = Continue (flushed st) (elements (pending_files st))) ∨
  (¬ flush_due st now ∧ watch_turn lower st (TimedOut now) = Continue st []).
Proof.
  unfold watch_turn, flush_due.
  destruct (last_event_time st) as [t|]; [|right; split; [|reflexivity]].
  2:{ intros (_ & t & Ht & _). discriminate. }
  case_bool_decide as Hpend; simpl.
  { right. split; [|reflexivity]. intros [Hne _]. done. }
  unfold Qtruthy. destruct (Qeq_bool t 0) eqn:Hzero; simpl.
  { right. split; [|reflexivity]. intros (_ & t' & [= <-] & Hnz & _).
    apply Hnz, Qeq_bool_iff, Hzero. }
  destruct (Qle_bool 1 (now - t)) eqn:Hquiet.
  - left. split; [|reflexivity]. split; [exact Hpend|].
    exists t. split; [reflexivity|]. split.
    + intros Hz. apply Qeq_bool_iff in Hz. congruence.
    + apply Qle_bool_iff, Hquiet.
  - right. split; [|reflexivity]. intros (_ & t' & [= <-] & _ & Hle).
    apply Qle_bool_iff in Hle. congruence.
Qed.

Lemma elements_nonempty (X : gset string) : X ≠ ∅ → elements X ≠ [].
Proof.
  intros HX Hnil. apply HX, set_eq. intros x.
  rewrite <- elem_of_elements, Hnil. split; [intros H; inversion H|].
  intros H. apply not_elem_of_empty in H. done.
Qed.

Lemma watch_turn_ok st o st' batch :
  watcher_ok lower st →
  watch_turn lower st o = Continue st' batch →
  watcher_ok lower st' ∧
  (batch = [] ∨
   batch ≠ [] ∧ NoDup batch ∧
   ∀ p, p ∈ batch → lower (path_suffix p) ∈ SUPPORTED_EXTENSIONS).
Proof.
  intros (Htime & Hdom & Hsup) Hturn. destruct o as [line present mt now|now].
  - destruct (decide (line = "")) as [->|Hline]; [discriminate|].
    destruct (watch_turn_line st line present mt now Hline)
      as [H|(mtime & _ & _ & Hs & H)]; rewrite H in Hturn; injection Hturn as <- <-.
    + split; [done|left; reflexivity].
    + split; [|left; reflexivity]. split; [|split]; simpl.
      * eauto.
      * rewrite dom_insert. apply union_mono_l, Hdom.
      * intros p [->%elem_of_singleton|Hp]%elem_of_union; auto.
  - destruct (watch_turn_timeout st now) as [[[Hne _] H]|[_ H]];
      rewrite H in Hturn; injection Hturn as <- <-.
    + split.
      * split; [|split]; simpl; [done|apply empty_subseteq|].
        intros p Hp. apply not_elem_of_empty in Hp. done.
      * right. split; [apply elements_nonempty, Hne|]. split; [apply NoDup_elements|].
        intros p Hp. apply Hsup, elem_of_elements, Hp.
    + split; [done|left; reflexivity].
Qed.

(** X19. A line from the notifier never flushes the batch; and a line for
    a path with an unsupported extension, for a file that is gone, or for a
    file whose modification time cannot be read leaves the watcher as it
    was. The empty line (end of stream) ends the loop. *)
Theorem line_turn st line present mt now :
  (line = "" → watch_turn lower st (Line line present mt now) = Break) ∧
  (line ≠ "" →
   (∃ st', watch_turn lower st (Line line present mt now) = Continue st' []) ∧
   (lower (path_suffix (strip line)) ∉ SUPPORTED_EXTENSIONS ∨ present = false ∨ mt = None →
    watch_turn lower st (Line line present mt now) = Continue st [])).
Proof.
  split; [intros ->; reflexivity|].
  intros Hline. split.
  - destruct (watch_turn_line st line present mt now Hline) as [H|(mtime & _ & _ & _ & H)];
      rewrite H; eauto.
  - intros Hskip.
    destruct (watch_turn_line st line present mt now Hline)
      as [H|(mtime & Hmt & Hpres & Hsup & _)]; [exact H|].
    destruct Hskip as [Hno|[Hgone|Hstat]]; [done|congruence|congruence].
Qed.

(** X20. A timeout flushes exactly when a batch is pending and the last
    event, at a non-zero time, lies at least one second back. The flush
    hands over every pending path once, empties the batch and the time of
    the last event, and keeps every recorded modification time. Any other
    timeout leaves the watcher as it was and hands over nothing. *)
Theorem timeout_turn st now :
  (flush_due st now →
   watch_turn lower st (TimedOut now) = Continue (flushed st) (elements (pending_files st)) ∧
   elements (pending_files st) ≠ [] ∧ NoDup (elements (pending_files st))) ∧
  (¬ flush_due st now → watch_turn lower st (TimedOut now) = Continue st []).
Proof.
  destruct (watch_turn_timeout st now) as [[Hdue H]|[Hnot H]]; split; try done.
  intros _. split; [exact H|]. split; [|apply NoDup_elements].
  apply elements_nonempty, Hdue.
Qed.

Lemma watch_turns_ok os st :
  watcher_ok lower st →
  watcher_ok lower (watch_turns lower st os).1 ∧
  Forall (λ batch, batch ≠ [] ∧ NoDup batch ∧
                   ∀ p, p ∈ batch → lower (path_suffix p) ∈ SUPPORTED_EXTENSIONS)
    (watch_turns lower st os).2.
Proof.
  revert st. induction os as [|o os IH]; intros st Hok; simpl.
  - split; [exact Hok|constructor].
  - destruct (watch_turn lower st o) as [st' batch|] eqn:Hturn; [|split; [exact Hok|constructor]].
    destruct (watch_turn_ok st o st' batch Hok Hturn) as [Hok' Hbatch].
    destruct (IH st' Hok') as [Hfinal Hall].
    destruct (watch_turns lower st' os) as [st'' batches]. simpl in *.
    split; [exact Hfinal|].
    case_bool_decide as Hnil; [exact Hall|].
    constructor; [|exact Hall]. destruct Hbatch as [Hb|Hb]; done.
Qed.

Lemma watcher_init_ok : watcher_ok lower watcher_init.
Proof.
  split; [|split]; simpl; [done|apply empty_subseteq|].
  intros p Hp. apply not_elem_of_empty in Hp. done.
Qed.

Lemma run_batch_nil merge w : run_batch lower cfg merge [] w = ((), w).
Proof. reflexivity. Qed.

Lemma watch_loop_turns merge os st w :
  watch_loop lower cfg merge st os w =
  ((watch_turns lower st os).1,
   foldl (λ w batch, (run_batch lower cfg merge batch w).2) w (watch_turns lower st os).2).
Proof.
  revert st w. induction os as [|o os IH]; intros st w; simpl; [reflexivity|].
  destruct (watch_turn lower st o) as [st' batch|]; [|reflexivity].
  unfold bind. destruct (run_batch lower cfg merge batch w) as [[] w1] eqn:Hrun.
  rewrite IH. destruct (watch_turns lower st' os) as [st'' batches]. simpl.
  case_bool_decide as Hnil.
  - subst batch. rewrite run_batch_nil in Hrun. injection Hrun as <-. reflexivity.
  - simpl. rewrite Hrun. reflexivity.
Qed.

(** X21. From its initial state the watcher keeps, over any run of
    observations: a pending batch always has a time of last event, every
    pending path has a recorded modification time and a supported
    extension; and every batch flushed is non-empty, without duplicates,
    of paths with a supported extension. The loop ends in the state these
    turns reach and processes exactly the flushed batches, in order. *)
Theorem watcher_invariant merge os w :
  let run := watch_turns lower watcher_init os in
  watcher_ok lower run.1 ∧
  Forall (λ batch, batch ≠ [] ∧ NoDup batch ∧
                   ∀ p, p ∈ batch → lower (path_suffix p) ∈ SUPPORTED_EXTENSIONS) run.2 ∧
  watch_loop lower cfg merge watcher_init os w =
  (run.1, foldl (λ w batch, (run_batch lower cfg merge batch w).2) w run.2).
Proof.
  intros run. subst run.
  destruct (watch_turns_ok os watcher_init watcher_init_ok) as [Hok Hall].
  split; [exact Hok|]. split; [exact Hall|apply watch_loop_turns].
Qed.

(** X22. A notification for an existing file with a supported extension is
    accepted whenever no modification time is recorded for the path or the
    recorded one differs from the file's: the path is put in the pending
    batch, which loses nothing, its modification time is recorded, the
    other recorded times are kept, and the time of the last event is the
    time of the notification. *)
Theorem changed_file_accepted st line mtime now :
  line ≠ "" →
  lower (path_suffix (strip line)) ∈ SUPPORTED_EXTENSIONS →
  (∀ m0, last_processed st !! strip line = Some m0 → ¬ (mtime == m0)%Q) →
  ∃ st',
    watch_turn lower st (Line line true (Some mtime) now) = Continue st' [] ∧
    strip line ∈ pending_files st' ∧
    pending_files st ⊆ pending_files st' ∧
    last_processed st' !! strip line = Some mtime ∧
    (∀ q, q ≠ strip line → last_processed st' !! q = last_processed st !! q) ∧
    last_event_time st' = Some now.
Proof.
  intros Hline Hsup Hdiff. exists (accepted st (strip line) mtime now).
  split.
  - unfold watch_turn. rewrite bool_decide_eq_false_2 by exact Hline.
    rewrite bool_decide_eq_true_2 by exact Hsup. simpl.
    destruct (last_processed st !! strip line) as [m0|] eqn:Hm0; simpl.
    + destruct (Qeq_bool mtime m0) eqn:Heq; [|rewrite andb_false_r; reflexivity].
      apply Qeq_bool_iff in Heq. destruct (Hdiff m0 eq_refl Heq).
    + reflexivity.
  - simpl. split; [apply elem_of_union_l, elem_of_singleton; reflexivity|].
    split; [apply union_subseteq_r|]. split; [apply lookup_insert_eq|].
    split; [|reflexivity]. intros q Hq. apply lookup_insert_ne. congruence.
Qed.

(** X23. A flush does not forget modification times: after a timeout,
    flushing or not, a notification for a path whose recorded modification
    time is positive and unchanged is still discarded. *)
Theorem discarded_after_timeout st line m m' now st1 batch present t :
  line ≠ "" →
  last_processed st !! strip line = Some m →
  (0 < m)%Q →
  (m' == m)%Q →
  watch_turn lower st (TimedOut now) = Continue st1 batch →
  watch_turn lower st1 (Line line present (Some m') t) = Continue st1 [].
Proof.
  intros Hline Hm Hpos Heq Hturn.
  assert (Hkept : last_processed st1 = last_processed st).
  { destruct (watch_turn_timeout st now) as [[_ H]|[_ H]];
      rewrite H in Hturn; injection Hturn as <- <-; reflexivity. }
  unfold watch_turn. rewrite bool_decide_eq_false_2 by exact Hline.
  destruct (negb (bool_decide _)); [reflexivity|].
  destruct (negb present); [reflexivity|].
  rewrite Hkept, Hm. simpl.
  assert (Hp : Qpositive m = true).
  { unfold Qpositive. destruct (Qle_bool m 0) eqn:Hle; [|reflexivity].
    apply Qle_bool_iff in Hle. destruct (Qlt_not_le _ _ Hpos Hle). }
  assert (Hs : Qeq_bool m' m = true) by (apply Qeq_bool_iff, Heq).
  rewrite Hp, Hs. reflexivity.
Qed.

(** X24. A burst of notifications for one path, whatever the modification
    times, flushes nothing and leaves in the pending batch what was there,
    with at most that one path added. *)
Theorem burst_coalesced st line os :
  line ≠ "" →
  Forall (λ o, ∃ present mt now, o = Line line present mt now) os →
  (watch_turns lower st os).2 = [] ∧
  (pending_files (watch_turns lower st os).1 = pending_files st ∨
   pending_files (watch_turns lower st os).1 = {[strip line]} ∪ pending_files st).
Proof.
  intros Hline Hall. revert st.
  induction Hall as [|o os (present & mt & now & ->) _ IH]; intros st.
  - split; [reflexivity|left; reflexivity].
  - cbn [watch_turns]. destruct (watch_turn_line st line present mt now Hline) as [H|(mtime & _ & _ & _ & H)];
      rewrite H; clear H.
    + destruct (IH st) as [Hb Hp]. destruct (watch_turns lower st os) as [st'' batches].
      simpl in *. subst batches. split; [reflexivity|exact Hp].
    + destruct (IH (accepted st (strip line) mtime now)) as [Hb Hp].
      destruct (watch_turns lower _ os) as [st'' batches].
      simpl in *. subst batches. split; [reflexivity|]. right.
      destruct Hp as [-> | ->]; [reflexivity|].
      apply set_eq. intros x. rewrite !elem_of_union. tauto.
Qed.

Lemma process_entries_keeps_in (R : relation world) `{!PreOrder R} dry merge strip walk :
  (∀ p, p ∈ walk → keeps R (process_file lower cfg p dry merge strip)) →
  (∀ p, p ∈ walk → keeps R (process_xmp_sidecar lower cfg p dry merge strip)) →
  ∀ c, keeps R (process_entries lower cfg dry merge strip c walk).
Proof.
  induction walk as [|p rest IH]; intros Hfile Hside c; simpl.
  - apply keeps_ret, _.
  - apply keeps_bind; [apply _| |].
    + apply process_entry_keeps; [apply _|apply Hfile; left|apply Hside; left].
    + intros c'. apply IH; intros q Hq; [apply Hfile|apply Hside]; right; exact Hq.
Qed.

Lemma same_files_except_weaken (P Q : string → Prop) w w' :
  (∀ x, P x → Q x) → same_files_except P w w' → same_files_except Q w w'.
Proof. intros HPQ H q Hq. apply H. intros HP. apply Hq, HPQ, HP. Qed.

Lemma process_folder_except folder dry merge strip :
  keeps (same_files_except (λ x, String.prefix (folder +:+ "/") x = true))
    (process_folder lower cfg folder dry merge strip).
Proof.
  intros w. unfold process_folder, bind. simpl.
  apply process_entries_keeps_in; [apply _| |].
  - intros p Hp. apply list_elem_of_filter in Hp as [[Hp _] _].
    intros w0. eapply same_files_but_except; [exact Hp|apply process_file_but].
  - intros p Hp. apply list_elem_of_filter in Hp as [[Hp _] _].
    intros w0. eapply same_files_but_except; [apply main_file_under, Hp|apply sidecar_but].
Qed.



(** *** The watch loop as a whole *)

Lemma path_is_dir_keeps (R : relation world) `{!Reflexive R} p : keeps R (path_is_dir p).
Proof. intros w. reflexivity. Qed.

Lemma main_file_keeps (R : relation world) `{!PreOrder R} path replace :
  keeps R (process_file lower cfg path false (negb replace) true) →
  keeps R (process_folder lower cfg path false (negb replace) true) →
  keeps R (main_file lower cfg path replace).
Proof.
  intros Hfile Hfolder. unfold main_file.
  apply keeps_bind; [apply _|apply path_exists_keeps, _|].
  intros present. destruct (negb present); [apply keeps_ret, _|].
  apply keeps_bind; [apply _|apply path_is_dir_keeps, _|].
  intros directory. destruct directory.
  - apply keeps_bind; [apply _|exact Hfolder|]. intros r. apply keeps_ret, _.
  - case_bool_decide; simpl; [|apply keeps_ret, _].
    apply keeps_bind; [apply _|exact Hfile|]. intros r. apply keeps_ret, _.
Qed.

Lemma run_batch_keeps (R : relation world) `{!PreOrder R} merge batch :
  (∀ p, keeps R (process_file lower cfg p false merge true)) →
  (∀ p, keeps R (process_xmp_sidecar lower cfg p false merge true)) →
  keeps R (run_batch lower cfg merge batch).
Proof.
  intros Hfile Hside. induction batch as [|p rest IH]; simpl; [apply keeps_ret, _|].
  apply keeps_bind; [apply _| |intros _; exact IH].
  apply main_file_keeps; [apply _| |]; rewrite negb_involutive.
  - apply Hfile.
  - apply process_folder_keeps; [apply _|exact Hfile|exact Hside].
Qed.

Lemma watch_loop_keeps (R : relation world) `{!PreOrder R} merge os :
  (∀ p, keeps R (process_file lower cfg p false merge true)) →
  (∀ p, keeps R (process_xmp_sidecar lower cfg p false merge true)) →
  ∀ st, keeps R (watch_loop lower cfg merge st os).
Proof.
  intros Hfile Hside. induction os as [|o os IH]; intros st; simpl; [apply keeps_ret, _|].
  destruct (watch_turn lower st o) as [st' batch|]; [|apply keeps_ret, _].
  apply keeps_bind; [apply _|apply run_batch_keeps; auto|]. intros _. apply IH.
Qed.

(** X25. Whatever the notifier sends, the watch loop changes nothing but
    tag attributes: the same files and directories exist afterwards, each
    with the metadata and the permission it had, and nothing appears but
    the temporary files that failed writes leave behind. In merge mode,
    when [xattr -p] prints the stored bytes, it never removes a tag from
    any file. *)
Theorem watch_loop_effects merge st os w q :
  let w' := (watch_loop lower cfg merge st os w).2 in
  ((is_Some (files w' !! q) ↔ is_Some (files w !! q)) ∧
   is_dir <$> files w' !! q = is_dir <$> files w !! q ∧
   metadata_output w' q = metadata_output w q ∧
   attribute_writable w' q = attribute_writable w q) ∧
  temp_files_grow w w' ∧
  (merge = true → xattr_p_raw w = true → TagSet w q ⊆ TagSet w' q).
Proof.
  split; [|split].
  - apply same_but_tags_observed.
    apply (watch_loop_keeps same_but_tags);
      [intros p; apply process_file_same_but_tags|intros p; apply sidecar_same_but_tags].
  - apply (watch_loop_keeps temp_files_grow);
      [intros p; apply process_file_temp_grow|intros p; apply sidecar_temp_grow].
  - intros -> Htool.
    assert (H : tags_grow w (watch_loop lower cfg true st os w).2).
    { apply (watch_loop_keeps tags_grow);
        [intros p; apply process_file_grows|intros p; apply sidecar_grows]. }
    apply H, Htool.
Qed.

(** *** Paths *)

(** X26. A path is its [with_suffix('')] followed by its suffix; so the
    main file of a sidecar (any path with a non-empty suffix) is never the
    sidecar itself, and a sidecar file never has its own tags touched. *)
Theorem suffix_round_trip p :
  path_with_suffix_empty p +:+ path_suffix p = p ∧
  (path_suffix p ≠ "" → path_with_suffix_empty p ≠ p) ∧
  (path_suffix p ≠ "" →
   ∀ dry merge strip w,
     files (process_xmp_sidecar lower cfg p dry merge strip w).2 !! p = files w !! p).
Proof.
  destruct (path_split p) as (base & Hp & Hbase & _).
  assert (Hne : path_suffix p ≠ "" → path_with_suffix_empty p ≠ p).
  { rewrite Hbase. intros Hs Heq.
    assert (Hlen : String.length p = String.length base + String.length (path_suffix p)).
    { rewrite Hp at 1. apply string_length_app. }
    rewrite Heq in Hlen. destruct (path_suffix p); [done|]. simpl in Hlen. lia. }
  split; [rewrite Hbase; symmetry; exact Hp|]. split; [exact Hne|].
  intros Hs dry merge strip w. apply sidecar_but. intros Heq. apply (Hne Hs). congruence.
Qed.

Lemma main_file_except p replace :
  keeps (same_files_except (reaches p)) (main_file lower cfg p replace).
Proof.
  apply main_file_keeps; [apply _| |].
  - intros w. eapply same_files_but_except; [left; reflexivity|apply process_file_but].
  - intros w. eapply same_files_except_weaken; [|apply process_folder_except].
    intros x Hx. right. exact Hx.
Qed.

Lemma run_batch_untouched merge batch w q :
  (∀ p, p ∈ batch → ¬ reaches p q) →
  files (run_batch lower cfg merge batch w).2 !! q = files w !! q.
Proof.
  revert w. induction batch as [|p rest IH]; intros w Hq; [reflexivity|].
  simpl. unfold bind.
  pose proof (main_file_except p (negb merge) w) as Hmain.
  destruct (main_file lower cfg p (negb merge) w) as [[] w1]. simpl in Hmain.
  rewrite IH by (intros p' Hp'; apply Hq; right; exact Hp').
  apply Hmain. apply Hq. left.
Qed.

Lemma watch_loop_untouched merge os st w q :
  (∀ p, p ∈ pending_files st → ¬ reaches p q) →
  (∀ line present mt now, Line line present mt now ∈ os → ¬ reaches (strip line) q) →
  files (watch_loop lower cfg merge st os w).2 !! q = files w !! q.
Proof.
  revert st w. induction os as [|o os IH]; intros st w Hpend Hos; [reflexivity|].
  cbn [watch_loop].
  destruct (watch_turn lower st o) as [st' batch|] eqn:Hturn; [|reflexivity].
  assert (Hstep : (∀ p, p ∈ batch → ¬ reaches p q) ∧
                  (∀ p, p ∈ pending_files st' → ¬ reaches p q)).
  { destruct o as [line present mt now|now].
    - destruct (decide (line = "")) as [->|Hline]; [discriminate|].
      destruct (watch_turn_line st line present mt now Hline)
        as [H|(mtime & _ & _ & _ & H)]; rewrite H in Hturn; injection Hturn as <- <-.
      + split; [intros p Hp; inversion Hp|exact Hpend].
      + split; [intros p Hp; inversion Hp|]. simpl.
        intros p [->%elem_of_singleton|Hp]%elem_of_union; [|apply Hpend, Hp].
        eapply Hos. left.
    - destruct (watch_turn_timeout st now) as [[_ H]|[_ H]];
        rewrite H in Hturn; injection Hturn as <- <-.
      + split; [intros p Hp; apply Hpend, elem_of_elements, Hp|].
        intros p Hp. apply not_elem_of_empty in Hp. done.
      + split; [intros p Hp; inversion Hp|exact Hpend]. }
  destruct Hstep as [Hbatch Hpend'].
  unfold bind. pose proof (run_batch_untouched merge batch w q Hbatch) as Hrun.
  destruct (run_batch lower cfg merge batch w) as [[] w1]. simpl in Hrun.
  rewrite IH; [exact Hrun|exact Hpend'|].
  intros line present mt now Hin. eapply Hos. right. exact Hin.
Qed.

(** X28. The watch loop touches only what it was notified about: a file is
    left as it is when no notification named its path or a directory above
    it. In particular a notification for a sidecar file leaves the main
    file alone. *)
Theorem watch_loop_confined merge os w q :
  (∀ line present mt now, Line line present mt now ∈ os → ¬ reaches (strip line) q) →
  files (watch_loop lower cfg merge watcher_init os w).2 !! q = files w !! q.
Proof.
  intros Hos. apply watch_loop_untouched; [|exact Hos].
  intros p Hp. apply not_elem_of_empty in Hp. done.
Qed.

(** *** Merging without reading *)

(** X30. When [xattr -p] prints the stored value in a form that is no
    property list, [get_finder_tags] reads no tag, and merge mode stores
    the keywords alone: after a merge that stores keywords the tags of the
    file are the first lines of those keywords, as after a replacement,
    and the tags the file had are gone unless they are among them. *)
Theorem merge_without_read p keywords w :
  xattr_p_raw w = false →
  keywords ≠ [] →
  attribute_writable w p = true →
  let r := reconcile p false true keywords w in
  (get_finder_tags p w).1 = [] ∧
  r.1.1 = true ∧
  TagSet r.2 p = list_to_set (first_line <$> keywords) ∧
  TagSet r.2 p = TagSet (reconcile p false false keywords w).2 p ∧
  (∀ strip kws,
     EffectiveKeywordSet lower cfg (RawKeywordSet w p) = Some kws → kws ≠ [] →
     TagSet (process_file lower cfg p false true strip w).2 p
     = list_to_set (first_line <$> kws)).
Proof.
  intros Htool Hne Hwr r. subst r.
  assert (Hread : ExistingTags w p = ∅) by (rewrite ExistingTags_eq, Htool; reflexivity).
  split; [rewrite get_finder_tags_read, Htool; destruct (tag_attribute w p); reflexivity|].
  split.
  { rewrite reconcile_eq. cbv zeta. cbn -[set_finder_tags].
    rewrite set_finder_tags_success.
    rewrite bool_decide_eq_false_2 by (apply merged_nonempty, Hne). exact Hwr. }
  split; [|split].
  - rewrite reconcile_TagSet, Hwr, Hread. simpl. apply (left_id_L ∅ (∪)).
  - rewrite !reconcile_TagSet, Hwr, Hread. simpl. apply (left_id_L ∅ (∪)).
  - intros strip kws Heff Hkws.
    unfold EffectiveKeywordSet in Heff.
    destruct (marker_missing cfg (RawKeywordSet w p)) eqn:Hgate; [discriminate|].
    injection Heff as Hkw.
    assert (Hraw : RawKeywordSet w p ≠ []).
    { intros Hnil. apply Hkws. rewrite <- Hkw, Hnil.
      unfold remove_marker. destruct (marker cfg); reflexivity. }
    rewrite process_file_TagSet. unfold reconciles.
    rewrite bool_decide_eq_false_2 by exact Hraw.
    rewrite Hgate, Hwr, Hkw. rewrite (bool_decide_eq_false_2 (kws = [])) by exact Hkws.
    rewrite andb_false_r. simpl. rewrite Hread. apply (left_id_L ∅ (∪)).
Qed.

End Further.

(** ** The further properties at concrete inputs *)

(** The keywords of the file of Scenario A. *)
Lemma xmp_keywords_union_witness :
  NoDup (get_xmp_keywords "/photos/cat.jpg" true scenario_A).1 ∧
  "Red" ∈ (get_xmp_keywords "/photos/cat.jpg" true scenario_A).1.
Proof.
  destruct (xmp_keywords_union "/photos/cat.jpg" true scenario_A
              (photo ["sync"; "Animals|Cat"; "Red"] (XTags [format_tag "Blue"]) true)
              {| Subject := Some (JList (IStr <$> ["sync"; "Animals|Cat"; "Red"]));
                 Keywords := Some (JList (IStr <$> ["sync"; "Animals|Cat"; "Red"]));
                 HierarchicalSubject := None |} [] eq_refl eq_refl)
    as [Hnodup Hin].
  split; [exact Hnodup|]. apply Hin. left.
  apply (bool_decide_unpack _). vm_compute. exact I.
Defined.

(** A missing file has no keywords. *)
Lemma xmp_keywords_nothing_witness :
  files scenario_A !! "/photos/none.jpg" = None ∧
  (get_xmp_keywords "/photos/none.jpg" false scenario_A).1 = [].
Proof.
  split; [reflexivity|].
  exact (proj1 (proj2 (xmp_keywords_nothing "/photos/none.jpg" false scenario_A)) eq_refl).
Defined.

(** Two tags written to the file of Scenario A are read back in order. *)
Lemma tags_round_trip_witness :
  (set_finder_tags "/photos/cat.jpg" ["Red"; "Cat"] scenario_A).1 = true ∧
  (get_finder_tags "/photos/cat.jpg"
     (set_finder_tags "/photos/cat.jpg" ["Red"; "Cat"] scenario_A).2).1 = ["Red"; "Cat"].
Proof.
  assert (Hok : (set_finder_tags "/photos/cat.jpg" ["Red"; "Cat"] scenario_A).1 = true)
    by reflexivity.
  assert (Hne : ["Red"; "Cat"] ≠ @nil string) by discriminate.
  split; [exact Hok|].
  destruct (tags_round_trip "/photos/cat.jpg" ["Red"; "Cat"] scenario_A Hne Hok) as [Hraw _].
  apply (Hraw eq_refl). repeat constructor.
Defined.

(** A write to a file whose attributes may not be changed fails and
    leaves its temporary file. *)
Lemma set_finder_tags_failure_witness :
  attribute_writable scenario_locked "/photos/cat.jpg" = false ∧
  (set_finder_tags "/photos/cat.jpg" ["Red"] scenario_locked).1 = false ∧
  temp_files (set_finder_tags "/photos/cat.jpg" ["Red"] scenario_locked).2
  = [[format_tag "Red"]].
Proof.
  destruct (set_finder_tags_failure "/photos/cat.jpg" ["Red"] scenario_locked)
    as (Hiff & Hleft & _).
  assert (Hfail : (set_finder_tags "/photos/cat.jpg" ["Red"] scenario_locked).1 = false).
  { apply Hiff. split; [discriminate|reflexivity]. }
  split; [reflexivity|]. split; [exact Hfail|].
  exact (proj2 (Hleft Hfail)).
Defined.

(** Merging into a file tagged Blue with colour 6 stores Blue with colour 0. *)
Lemma merge_resets_colours_witness :
  xattr_p_raw scenario_coloured = true ∧
  tag_attribute scenario_coloured "/photos/cat.jpg" = XTags ["Blue" +:+ String LF "6"] ∧
  ∃ entries,
    tag_attribute (reconcile "/photos/cat.jpg" false true ["Red"] scenario_coloured).2
      "/photos/cat.jpg" = XTags entries ∧
    NoDup entries ∧
    format_tag (first_line ("Blue" +:+ String LF "6")) ∈ entries ∧
    ∀ e, e ∈ entries → ∃ tag, e = format_tag tag.
Proof.
  split; [reflexivity|]. split; [reflexivity|].
  apply (merge_resets_colours "/photos/cat.jpg" ["Red"] scenario_coloured
           ["Blue" +:+ String LF "6"]); [reflexivity|reflexivity|left|reflexivity].
Defined.

(** A failed write is the only failure: the locked file of a marked photo. *)
Lemma process_file_failure_witness :
  (process_file lower_ascii source_config "/photos/cat.jpg" false true true scenario_locked).1.1
    = false ∧
  files (process_file lower_ascii source_config "/photos/cat.jpg" false true true
           scenario_locked).2 = files scenario_locked.
Proof.
  assert (Hfail : (process_file lower_ascii source_config "/photos/cat.jpg" false true true
                     scenario_locked).1.1 = false) by (vm_compute; reflexivity).
  split; [exact Hfail|].
  destruct (process_file_failure lower_ascii source_config "/photos/cat.jpg" false true true
              scenario_locked) as [_ H].
  destruct (H Hfail) as (_ & _ & Hfiles & _). exact Hfiles.
Defined.

(** Merging in a folder keeps the tag of its file. *)
Lemma folder_merge_keeps_tags_witness :
  xattr_p_raw scenario_A = true ∧
  TagSet scenario_A "/photos/cat.jpg"
  ⊆ TagSet (process_folder lower_ascii source_config "/photos" false true true scenario_A).2
      "/photos/cat.jpg".
Proof.
  split; [reflexivity|].
  apply (folder_merge_keeps_tags lower_ascii source_config "/photos" false true scenario_A
           "/photos/cat.jpg" eq_refl).
Defined.

(** Scenario A with an [xattr] that displays values: the merge stores the
    two keywords and Blue is gone. *)
Lemma merge_without_read_witness :
  xattr_p_raw (displayed scenario_A) = false ∧
  attribute_writable (displayed scenario_A) "/photos/cat.jpg" = true ∧
  TagSet (displayed scenario_A) "/photos/cat.jpg" = {["Blue"]} ∧
  TagSet (reconcile "/photos/cat.jpg" false true ["Animals|Cat"; "Red"] (displayed scenario_A)).2
    "/photos/cat.jpg" = list_to_set (first_line <$> ["Animals|Cat"; "Red"]).
Proof.
  assert (Hne : ["Animals|Cat"; "Red"] ≠ @nil string) by discriminate.
  split; [reflexivity|]. split; [reflexivity|]. split; [vm_compute; reflexivity|].
  destruct (merge_without_read lower_ascii source_config "/photos/cat.jpg"
              ["Animals|Cat"; "Red"] (displayed scenario_A) eq_refl Hne eq_refl)
    as (_ & _ & Hset & _).
  exact Hset.
Defined.

(** A sidecar without its main file; and a sidecar named after a
    directory, which is tagged. *)
Lemma sidecar_without_main_witness :
  files scenario_orphan !! path_with_suffix_empty "/photos/gone.jpg.xmp" = None ∧
  process_xmp_sidecar lower_ascii source_config "/photos/gone.jpg.xmp" false true true
    scenario_orphan = ((false, 0), scenario_orphan) ∧
  is_dir <$> files scenario_album !! path_with_suffix_empty "/photos/album.xmp" = Some true ∧
  (process_xmp_sidecar lower_ascii source_config "/photos/album.xmp" false true true
     scenario_album).1.1 = true ∧
  TagSet (process_xmp_sidecar lower_ascii source_config "/photos/album.xmp" false true true
            scenario_album).2 "/photos/album" = {["Red"]}.
Proof.
  assert (Hnone : files scenario_orphan !! path_with_suffix_empty "/photos/gone.jpg.xmp" = None)
    by (vm_compute; reflexivity).
  split; [exact Hnone|]. split.
  - exact (proj1 (sidecar_without_main lower_ascii source_config "/photos/gone.jpg.xmp"
                    false true true scenario_orphan) Hnone).
  - split; [vm_compute; reflexivity|]. split; [|vm_compute; reflexivity].
    apply (sidecar_without_main lower_ascii source_config "/photos/album.xmp"
             false true true scenario_album).
    vm_compute. reflexivity.
Defined.

(** A sidecar whose main file cannot be written counts no error. *)
Lemma sidecar_not_counted_witness :
  (process_xmp_sidecar lower_ascii source_config "/photos/cat.jpg.xmp" false true true
     scenario_sidecar_locked).1 = (false, 0) ∧
  errors (process_entry lower_ascii source_config false true true
            {| processed := 0; tagged := 0; errors := 0 |} "/photos/cat.jpg.xmp"
            scenario_sidecar_locked).1 = 0.
Proof.
  split; [vm_compute; reflexivity|].
  apply (sidecar_not_counted lower_ascii source_config false true true
           {| processed := 0; tagged := 0; errors := 0 |} "/photos/cat.jpg.xmp"
           scenario_sidecar_locked).
  vm_compute. reflexivity.
Defined.

(** A timeout two seconds after the first notification flushes. *)
Lemma timeout_turn_witness :
  flush_due (watcher_after_first 5%Q) 102%Q ∧
  watch_turn lower_ascii (watcher_after_first 5%Q) (TimedOut 102%Q)
  = Continue (flushed (watcher_after_first 5%Q)) ["/photos/cat.jpg"].
Proof.
  assert (Hdue : flush_due (watcher_after_first 5%Q) 102%Q).
  { split; [apply (bool_decide_unpack _); vm_compute; exact I|].
    exists 100%Q. split; [vm_compute; reflexivity|].
    split; [intros H; vm_compute in H; discriminate|intros H; vm_compute in H; discriminate]. }
  split; [exact Hdue|].
  destruct (timeout_turn lower_ascii (watcher_after_first 5%Q) 102%Q) as [H _].
  destruct (H Hdue) as [-> _]. vm_compute. reflexivity.
Defined.

(** A notification with a new modification time is accepted. *)
Lemma changed_file_accepted_witness :
  last_processed (watcher_after_first 5%Q) !! "/photos/cat.jpg" = Some 5%Q ∧
  ∃ st',
    watch_turn lower_ascii (watcher_after_first 5%Q)
      (Line "/photos/cat.jpg" true (Some 7%Q) 101%Q) = Continue st' [] ∧
    last_processed st' !! "/photos/cat.jpg" = Some 7%Q.
Proof.
  split; [vm_compute; reflexivity|].
  assert (Hline : "/photos/cat.jpg" ≠ "") by discriminate.
  assert (Hsup : lower_ascii (path_suffix (strip "/photos/cat.jpg")) ∈ SUPPORTED_EXTENSIONS)
    by (apply (bool_decide_unpack _); vm_compute; exact I).
  assert (Hnew : ∀ m0, last_processed (watcher_after_first 5%Q) !! strip "/photos/cat.jpg"
                       = Some m0 → ¬ (7 == m0)%Q).
  { intros m0 Hm0. vm_compute in Hm0. injection Hm0 as <-.
    intros H. vm_compute in H. discriminate. }
  destruct (changed_file_accepted lower_ascii (watcher_after_first 5%Q) "/photos/cat.jpg"
              7%Q 101%Q Hline Hsup Hnew) as (st' & Hturn & _ & _ & Hmark & _).
  exists st'. split; [exact Hturn|exact Hmark].
Defined.

(** After the flush a notification with the old modification time is
    discarded. *)
Lemma discarded_after_timeout_witness :
  watch_turn lower_ascii (watcher_after_first 5%Q) (TimedOut 102%Q)
  = Continue (flushed (watcher_after_first 5%Q)) ["/photos/cat.jpg"] ∧
  watch_turn lower_ascii (flushed (watcher_after_first 5%Q))
    (Line "/photos/cat.jpg" true (Some 5%Q) 103%Q)
  = Continue (flushed (watcher_after_first 5%Q)) [].
Proof.
  assert (Hflush : watch_turn lower_ascii (watcher_after_first 5%Q) (TimedOut 102%Q)
                   = Continue (flushed (watcher_after_first 5%Q)) ["/photos/cat.jpg"])
    by (vm_compute; reflexivity).
  split; [exact Hflush|].
  apply (discarded_after_timeout lower_ascii (watcher_after_first 5%Q) "/photos/cat.jpg"
           5%Q 5%Q 102%Q (flushed (watcher_after_first 5%Q)) ["/photos/cat.jpg"] true 103%Q);
    [discriminate|vm_compute; reflexivity|reflexivity|reflexivity|exact Hflush].
Defined.

(** Three notifications for one file leave one pending path. *)
Lemma burst_coalesced_witness :
  (watch_turns lower_ascii watcher_init burst).2 = [] ∧
  elements (pending_files (watch_turns lower_ascii watcher_init burst).1) = ["/photos/cat.jpg"].
Proof.
  assert (Hline : "/photos/cat.jpg" ≠ "") by discriminate.
  assert (Hall : Forall (λ o, ∃ present mt now, o = Line "/photos/cat.jpg" present mt now) burst)
    by (repeat constructor; eauto).
  destruct (burst_coalesced lower_ascii watcher_init "/photos/cat.jpg" burst Hline Hall)
    as [Hnone _].
  split; [exact Hnone|]. vm_compute. reflexivity.
Defined.

(** The main file of a sidecar is another file. *)
Lemma suffix_round_trip_witness :
  path_suffix "/photos/cat.jpg.xmp" = ".xmp" ∧
  path_with_suffix_empty "/photos/cat.jpg.xmp" ≠ "/photos/cat.jpg.xmp".
Proof.
  split; [vm_compute; reflexivity|].
  apply (suffix_round_trip lower_ascii source_config "/photos/cat.jpg.xmp").
  vm_compute. discriminate.
Defined.


(** A notification for a sidecar leaves its main file alone. *)
Lemma watch_loop_confined_witness :
  files (watch_loop lower_ascii source_config true watcher_init sidecar_notified
           scenario_sidecar).2 !! "/photos/cat.jpg"
  = files scenario_sidecar !! "/photos/cat.jpg".
Proof.
  apply (watch_loop_confined lower_ascii source_config true sidecar_notified scenario_sidecar
           "/photos/cat.jpg").
  intros line present mt now Hin Hreach.
  apply list_elem_of_In in Hin. simpl in Hin.
  destruct Hin as [Hin|[Hin|[]]]; [|discriminate].
  injection Hin as <- _ _ _.
  destruct Hreach as [Heq|Hbelow]; [vm_compute in Heq|vm_compute in Hbelow]; discriminate.
Defined.
